(** * MindFriend: the conversation state machine of [App.tsx]

    A shallow embedding of the chat front-end's state handling
    (the [App] component and [types.ts]) and the properties of its
    send / stream / analyse / speech handlers.

    - JavaScript strings are sequences of UTF-16 code units ([list N]).
    - React state is a record; every [setX] call of a handler is an
      [Effect], and a handler is the list of effects it performs, in
      source order; [run] interprets them on the state.
    - The two [async] handlers are cut at their [await] points; the
      [Machine] module interleaves the pieces of all running handlers. *)

From Stdlib Require Import ZArith NArith Bool List String Ascii Lia.
From Stdlib Require Import Decimal DecimalString DecimalPos DecimalZ.
From stdpp Require Import base tactics option list.
Import ListNotations.

(** ** JavaScript strings *)

Module JS.

Definition jsstring : Type := list N.

(** An ASCII literal of the source as code units. *)
Definition lit (s : string) : jsstring :=
  List.map N_of_ascii (list_ascii_of_string s).

(** ECMAScript [WhiteSpace] and [LineTerminator] code points: what
    [String.prototype.trim] strips. *)
Definition isWhiteSpace (c : N) : bool :=
  (  (c =? 0x09) || (c =? 0x0A) || (c =? 0x0B) || (c =? 0x0C) || (c =? 0x0D)
  || (c =? 0x20) || (c =? 0xA0) || (c =? 0x1680)
  || ((0x2000 <=? c) && (c <=? 0x200A))
  || (c =? 0x2028) || (c =? 0x2029) || (c =? 0x202F) || (c =? 0x205F)
  || (c =? 0x3000) || (c =? 0xFEFF))%N.

Fixpoint trimStart (s : jsstring) : jsstring :=
  match s with
  | c :: s' => if isWhiteSpace c then trimStart s' else s
  | [] => []
  end.

Definition trimEnd (s : jsstring) : jsstring := rev (trimStart (rev s)).

(** [s.trim()] *)
Definition trim (s : jsstring) : jsstring := trimEnd (trimStart s).

(** Truthiness of a string: only the empty string is falsy. *)
Definition truthy (s : jsstring) : bool :=
  match s with [] => false | _ :: _ => true end.

Fixpoint startsWith (s t : jsstring) : bool :=
  match t, s with
  | [], _ => true
  | _ :: _, [] => false
  | c :: t', d :: s' => (c =? d)%N && startsWith s' t'
  end.

(** [s.endsWith(t)] *)
Definition endsWith (s t : jsstring) : bool := startsWith (rev s) (rev t).

(** [n.toString()] for an integral Number below 1e21 (every value of
    [Date.now()] and [Date.now() + 1]): the decimal digits, with a
    leading minus sign for a negative one. *)
Definition Number_toString (n : Z) : jsstring :=
  lit (NilZero.string_of_int (Z.to_int n)).

End JS.
Import JS.

(** ** [types.ts] *)

Inductive Role : Type := user | model.

Record Message : Type := mkMessage {
  id : jsstring;
  role : Role;
  text : jsstring;
  timestamp : Z;
  isError : option bool          (* [isError?: boolean] *)
}.

Record AnalysisData : Type := mkAnalysisData {
  mood : jsstring;
  symptoms : list jsstring;
  solutions : list jsstring;
  summary : jsstring;
  disclaimer : jsstring
}.

Inductive LoadingState : Type := IDLE | SENDING | ANALYZING.

Definition LoadingState_eqb (a b : LoadingState) : bool :=
  match a, b with
  | IDLE, IDLE | SENDING, SENDING | ANALYZING, ANALYZING => true
  | _, _ => false
  end.

(** [!m.isError]: [undefined] and [false] are falsy. *)
Definition isError_falsy (m : Message) : bool :=
  match isError m with Some true => false | _ => true end.

(** ** The [App] component: state and handlers *)

Module App.

(** The [useState] cells and the two refs the handlers read. *)
Record AppState : Type := mkApp {
  messages : list Message;
  inputText : jsstring;
  loadingState : LoadingState;
  analysisData : option AnalysisData;     (* [AnalysisData | null] *)
  showAnalysis : bool;
  isListening : bool;
  recognition : bool;                     (* [recognitionRef.current] is set *)
  baseText : jsstring                     (* [baseTextRef.current] *)
}.

(** [chunk.text] of a [GenerateContentResponse] may be [undefined]. *)
Record GenerateContentResponse : Type := mkChunk {
  chunk_text : option jsstring
}.

(** What a handler does, one constructor per kind of call in the source.
    [AppendMessage m] is [setMessages(prev => [...prev, m])] and
    [RewriteText i t] is
    [setMessages(prev => prev.map(msg => msg.id === i ? {...msg, text: t} : msg))]. *)
Inductive Effect : Type :=
| SetMessages (l : list Message)
| AppendMessage (m : Message)
| RewriteText (responseId : jsstring) (fullResponseText : jsstring)
| SetInputText (s : jsstring)
| SetLoadingState (l : LoadingState)
| SetAnalysisData (d : AnalysisData)
| SetShowAnalysis (b : bool)
| SetIsListening (b : bool)
| SetRecognition
| SetBaseText (s : jsstring)
| RecognitionStart
| RecognitionStop
| ResetChatSession
| GetChatSession
| SendMessageStream (message : jsstring)
| AnalyzeConversation (history : list Message)
| ConsoleError
| Alert.

Definition jsstring_eqb (a b : jsstring) : bool :=
  bool_decide (a = b).

Definition rewrite_text (responseId fullResponseText : jsstring) (msg : Message)
  : Message :=
  if jsstring_eqb (id msg) responseId
  then mkMessage (id msg) (role msg) fullResponseText (timestamp msg) (isError msg)
  else msg.

Definition with_messages (l : list Message) (st : AppState) : AppState :=
  mkApp l (inputText st) (loadingState st) (analysisData st)
        (showAnalysis st) (isListening st) (recognition st) (baseText st).

Definition apply (e : Effect) (st : AppState) : AppState :=
  match e with
  | SetMessages l => with_messages l st
  | AppendMessage m => with_messages (messages st ++ [m]) st
  | RewriteText i t => with_messages (List.map (rewrite_text i t) (messages st)) st
  | SetInputText s =>
      mkApp (messages st) s (loadingState st) (analysisData st)
            (showAnalysis st) (isListening st) (recognition st) (baseText st)
  | SetLoadingState l =>
      mkApp (messages st) (inputText st) l (analysisData st)
            (showAnalysis st) (isListening st) (recognition st) (baseText st)
  | SetAnalysisData d =>
      mkApp (messages st) (inputText st) (loadingState st) (Some d)
            (showAnalysis st) (isListening st) (recognition st) (baseText st)
  | SetShowAnalysis b =>
      mkApp (messages st) (inputText st) (loadingState st) (analysisData st)
            b (isListening st) (recognition st) (baseText st)
  | SetIsListening b =>
      mkApp (messages st) (inputText st) (loadingState st) (analysisData st)
            (showAnalysis st) b (recognition st) (baseText st)
  | SetRecognition =>
      mkApp (messages st) (inputText st) (loadingState st) (analysisData st)
            (showAnalysis st) (isListening st) true (baseText st)
  | SetBaseText s =>
      mkApp (messages st) (inputText st) (loadingState st) (analysisData st)
            (showAnalysis st) (isListening st) (recognition st) s
  | RecognitionStart | RecognitionStop | ResetChatSession | GetChatSession
  | SendMessageStream _ | AnalyzeConversation _ | ConsoleError | Alert => st
  end.

(** The state after a handler's effects, applied in order. *)
Definition run (es : list Effect) (st : AppState) : AppState :=
  fold_left (fun s e => apply e s) es st.

(** The [useState] initial values. *)
Definition initial : AppState :=
  mkApp [] [] IDLE None false false false [].

(** Two readings of [Date.now()]: the one an [id] is made from and the
    one stored as [timestamp]. *)
Record Stamp : Type := mkStamp { now_id : Z; now_ts : Z }.

(** *** Mount effects (lines 32-78) *)

Definition greeting_text : jsstring :=
  lit "Hello lovely! " ++ [0xE2; 0x153; 0xA8]%N
  ++ lit " I'm your MindfulMate. I'm here to listen to you with an open heart "
  ++ [0xF0; 0x178; 0x2019; 0x153]%N
  ++ lit ". How are you feeling today?".

Definition initialGreeting (now : Z) : Message :=
  {| id := lit "init-1"; role := model; text := greeting_text;
     timestamp := now; isError := None |}.

(** [speech]: the window offers [SpeechRecognition] or
    [webkitSpeechRecognition]. *)
Definition mount_effects (now : Z) (speech : bool) : list Effect :=
  [SetMessages [initialGreeting now]; ResetChatSession]
  ++ (if speech then [SetRecognition] else []).

Definition mounted (now : Z) (speech : bool) : AppState :=
  run (mount_effects now speech) initial.

(** *** Speech recognition (lines 56-73, 161-173) *)

Definition recognition_onstart : list Effect := [SetIsListening true].
Definition recognition_onend : list Effect := [SetIsListening false].

(** [segments] are [event.results[i][0].transcript], in index order. *)
Definition recognition_onresult (segments : list jsstring) (st : AppState)
  : list Effect :=
  let transcript := List.fold_left (fun acc s => acc ++ s) segments [] in
  let separator :=
    if truthy (baseText st) && negb (endsWith (baseText st) (lit " "))
    then lit " " else [] in
  [SetInputText (baseText st ++ separator ++ transcript)].

Definition toggleVoiceInput (st : AppState) : list Effect :=
  if negb (recognition st) then [Alert]
  else if isListening st then [RecognitionStop]
  else [SetBaseText (inputText st); RecognitionStart].

(** [onChange] of the textarea. *)
Definition onChange (value : jsstring) : list Effect := [SetInputText value].

(** *** [handleSendMessage] (lines 88-152) *)

(** The guard of line 89; line 279 disables the send button on the same
    condition. *)
Definition send_guard_returns (st : AppState) : bool :=
  negb (truthy (trim (inputText st)))
  || negb (LoadingState_eqb (loadingState st) IDLE).

(** Lines 89-114, up to the call awaited on line 114 ([getChatSession]
    is taken to return; a failure of the awaited call is [CallRejects]
    below). The reset of the textarea height on line 100 touches the DOM
    only and is left out. *)
Definition handleSendMessage_begin (c : Stamp) (st : AppState) : list Effect :=
  if send_guard_returns st then []
  else
    (if isListening st && recognition st then [RecognitionStop] else [])
    ++
    let userText := trim (inputText st) in
    let newMessage :=
      {| id := Number_toString (now_id c); role := user; text := userText;
         timestamp := now_ts c; isError := None |} in
    [ SetInputText [];
      AppendMessage newMessage;
      SetLoadingState SENDING;
      GetChatSession;
      SendMessageStream userText ].

Definition responseId_at (c : Stamp) : jsstring :=
  Number_toString (now_id c + 1).

(** Lines 116-123, once the awaited call has returned a stream. *)
Definition handleSendMessage_opened (c : Stamp) : list Effect :=
  [ AppendMessage
      {| id := responseId_at c; role := model; text := [];
         timestamp := now_ts c; isError := None |} ].

(** [c.text || ''] *)
Definition textChunk (c : GenerateContentResponse) : jsstring :=
  match chunk_text c with
  | Some t => if truthy t then t else []
  | None => []
  end.

(** One iteration of the [for await] loop (lines 126-134): the new value
    of [fullResponseText] and the effect. *)
Definition handleSendMessage_chunk
  (responseId fullResponseText : jsstring) (c : GenerateContentResponse)
  : jsstring * list Effect :=
  let fullResponseText' := fullResponseText ++ textChunk c in
  (fullResponseText', [RewriteText responseId fullResponseText']).

Definition apology_text : jsstring :=
  lit "Oh no! " ++ [0xF0; 0x178; 0xA5; 0x20AC]%N
  ++ lit " I'm having trouble connecting right now. Please try again in a moment.".

(** The [catch] block (lines 137-148). *)
Definition handleSendMessage_catch (c : Stamp) : list Effect :=
  [ ConsoleError;
    AppendMessage
      {| id := Number_toString (now_id c); role := model; text := apology_text;
         timestamp := now_ts c; isError := Some true |} ].

(** The [finally] block (lines 149-151). *)
Definition handleSendMessage_finally : list Effect := [SetLoadingState IDLE].

(** What the gateway does for one call of [chat.sendMessageStream]. *)
Inductive StreamBehaviour : Type :=
| CallRejects (failed : Stamp)
    (* the awaited call throws: no stream *)
| StreamYields (opened : Stamp) (chunks : list GenerateContentResponse)
               (raised : option Stamp).
    (* the stream yields [chunks], then ends ([None]) or throws *)

Fixpoint stream_loop (responseId fullResponseText : jsstring)
  (chunks : list GenerateContentResponse) : list Effect :=
  match chunks with
  | [] => []
  | c :: rest =>
      let '(fullResponseText', es) :=
        handleSendMessage_chunk responseId fullResponseText c in
      es ++ stream_loop responseId fullResponseText' rest
  end.

(** The effects of one whole call of the handler, in order. *)
Definition handleSendMessage (c : Stamp) (g : StreamBehaviour) (st : AppState)
  : list Effect :=
  if send_guard_returns st then []
  else
    handleSendMessage_begin c st
    ++ match g with
       | CallRejects failed => handleSendMessage_catch failed
       | StreamYields opened chunks raised =>
           handleSendMessage_opened opened
           ++ stream_loop (responseId_at opened) [] chunks
           ++ match raised with
              | Some failed => handleSendMessage_catch failed
              | None => []
              end
       end
    ++ handleSendMessage_finally.

(** *** [handleAnalyze] (lines 175-191) *)

(** Line 183. *)
Definition validHistory (msgs : list Message) : list Message :=
  List.filter (fun m => isError_falsy m && truthy (trim (text m))) msgs.

(** Lines 176-184, up to the awaited call. *)
Definition handleAnalyze_begin (st : AppState) : list Effect :=
  if (length (messages st) <? 3)%nat then []
  else [ SetShowAnalysis true;
         SetLoadingState ANALYZING;
         AnalyzeConversation (validHistory (messages st)) ].

Definition handleAnalyze_resolved (data : AnalysisData) : list Effect :=
  [SetAnalysisData data].

Definition handleAnalyze_catch : list Effect := [ConsoleError].

Definition handleAnalyze_finally : list Effect := [SetLoadingState IDLE].

(** One whole call; [outcome] is what [analyzeConversation] did:
    [Some data] when it resolved, [None] when it threw. *)
Definition handleAnalyze (outcome : option AnalysisData) (st : AppState)
  : list Effect :=
  if (length (messages st) <? 3)%nat then []
  else
    handleAnalyze_begin st
    ++ match outcome with
       | Some data => handleAnalyze_resolved data
       | None => handleAnalyze_catch
       end
    ++ handleAnalyze_finally.

(** [disabled] of the Daily Insight button (line 210). *)
Definition analyze_disabled (st : AppState) : bool :=
  (length (messages st) <? 3)%nat
  || LoadingState_eqb (loadingState st) ANALYZING.

(** [onClose] of the analysis panel (line 303). *)
Definition onClose : list Effect := [SetShowAnalysis false].

End App.
Import App.

(** ** The interleaving of the handlers *)

Module Machine.

(** A call of an [async] handler that has started and not yet returned,
    with the local variables it still needs. *)
Inductive Task : Type :=
| SendAwaiting
    (* [handleSendMessage], suspended at line 114 *)
| SendStreaming (responseId fullResponseText : jsstring)
    (* [handleSendMessage], suspended in the loop of line 125 *)
| AnalyzeAwaiting
    (* [handleAnalyze], suspended at line 184 *)
| Settled.

Record Config : Type := mkConfig {
  app : AppState;
  tasks : list Task
}.

(** What can happen next: a user action, or the continuation of the
    task numbered [k]. *)
Inductive Event : Type :=
| Change (value : jsstring)
| Submit (c : Stamp)
| StreamOpened (k : nat) (c : Stamp)
| Delta (k : nat) (chunk : GenerateContentResponse)
| StreamEnd (k : nat)
| StreamError (k : nat) (c : Stamp)
| Analyze
| AnalysisComplete (k : nat) (data : AnalysisData)
| AnalysisError (k : nat)
| CloseAnalysis
| ToggleVoice
| SpeechStart
| SpeechEnd
| SpeechResult (segments : list jsstring).

Definition continue (cfg : Config) (es : list Effect) (k : nat) (t : Task)
  : option Config :=
  Some (mkConfig (run es (app cfg)) (<[k := t]> (tasks cfg))).

Definition spawn (cfg : Config) (es : list Effect) (t : Task) : option Config :=
  Some (mkConfig (run es (app cfg)) (tasks cfg ++ [t])).

Definition act (cfg : Config) (es : list Effect) : option Config :=
  Some (mkConfig (run es (app cfg)) (tasks cfg)).

(** [None]: the event cannot happen in this configuration. *)
Definition step (e : Event) (cfg : Config) : option Config :=
  let st := app cfg in
  match e with
  | Change value => act cfg (onChange value)
  | Submit c =>
      if send_guard_returns st then Some cfg
      else spawn cfg (handleSendMessage_begin c st) SendAwaiting
  | StreamOpened k c =>
      match tasks cfg !! k with
      | Some SendAwaiting =>
          continue cfg (handleSendMessage_opened c) k
                   (SendStreaming (responseId_at c) [])
      | _ => None
      end
  | Delta k chunk =>
      match tasks cfg !! k with
      | Some (SendStreaming responseId fullResponseText) =>
          let '(fullResponseText', es) :=
            handleSendMessage_chunk responseId fullResponseText chunk in
          continue cfg es k (SendStreaming responseId fullResponseText')
      | _ => None
      end
  | StreamEnd k =>
      match tasks cfg !! k with
      | Some (SendStreaming _ _) =>
          continue cfg handleSendMessage_finally k Settled
      | _ => None
      end
  | StreamError k c =>
      match tasks cfg !! k with
      | Some SendAwaiting | Some (SendStreaming _ _) =>
          continue cfg (handleSendMessage_catch c ++ handleSendMessage_finally)
                   k Settled
      | _ => None
      end
  | Analyze =>
      if analyze_disabled st then Some cfg
      else spawn cfg (handleAnalyze_begin st) AnalyzeAwaiting
  | AnalysisComplete k data =>
      match tasks cfg !! k with
      | Some AnalyzeAwaiting =>
          continue cfg (handleAnalyze_resolved data ++ handleAnalyze_finally)
                   k Settled
      | _ => None
      end
  | AnalysisError k =>
      match tasks cfg !! k with
      | Some AnalyzeAwaiting =>
          continue cfg (handleAnalyze_catch ++ handleAnalyze_finally) k Settled
      | _ => None
      end
  | CloseAnalysis => act cfg onClose
  | ToggleVoice => act cfg (toggleVoiceInput st)
  | SpeechStart =>
      if recognition st then act cfg recognition_onstart else None
  | SpeechEnd =>
      if recognition st then act cfg recognition_onend else None
  | SpeechResult segments =>
      if recognition st then act cfg (recognition_onresult segments st)
      else None
  end.

Fixpoint run_events (evs : list Event) (cfg : Config) : option Config :=
  match evs with
  | [] => Some cfg
  | e :: rest =>
      match step e cfg with
      | Some cfg' => run_events rest cfg'
      | None => None
      end
  end.

(** The configuration once the mount effects have run. *)
Definition start (now : Z) (speech : bool) : Config :=
  mkConfig (mounted now speech) [].

Definition reachable_from (now : Z) (speech : bool) (cfg : Config) : Prop :=
  exists evs, run_events evs (start now speech) = Some cfg.

Definition reachable (cfg : Config) : Prop :=
  exists now speech, reachable_from now speech cfg.

End Machine.
Import Machine.

(** ** Vocabulary of the statements *)

(** The consumer policy in the specification's words: a single space,
    only when the baseline is non-empty and does not end in a space. *)
Definition separator_for (baseline : jsstring) : jsstring :=
  match baseline with
  | [] => []
  | _ :: _ => if (List.last baseline 0 =? 0x20)%N then [] else [0x20%N]
  end.

Definition draft_from_speech (baseline transcript : jsstring) : jsstring :=
  baseline ++ separator_for baseline ++ transcript.

(** Index of the first effect of a kind in a handler's effect list. *)
Fixpoint position (p : Effect -> bool) (es : list Effect) : option nat :=
  match es with
  | [] => None
  | e :: rest => if p e then Some 0 else S <$> position p rest
  end.

(** Both kinds occur, the first [a] before the first [b]. *)
Definition before (a b : Effect -> bool) (es : list Effect) : bool :=
  match position a es, position b es with
  | Some i, Some j => i <? j
  | _, _ => false
  end.

Definition appends_user (e : Effect) : bool :=
  match e with
  | AppendMessage m => match role m with user => true | model => false end
  | _ => false
  end.

Definition clears_draft (e : Effect) : bool :=
  match e with SetInputText [] => true | _ => false end.

Definition appends_placeholder (e : Effect) : bool :=
  match e with
  | AppendMessage m =>
      match role m, text m with model, [] => true | _, _ => false end
  | _ => false
  end.

Definition invokes_send (e : Effect) : bool :=
  match e with SendMessageStream _ => true | _ => false end.

(** The order the specification gives: user message, draft cleared,
    placeholder, gateway send. *)
Definition order_user_clear_placeholder_send (es : list Effect) : bool :=
  before appends_user clears_draft es
  && before clears_draft appends_placeholder es
  && before appends_placeholder invokes_send es.

(** The order of the source: draft cleared, user message, gateway send,
    and the placeholder once the stream is there. *)
Definition order_clear_user_send_placeholder (es : list Effect) : bool :=
  before clears_draft appends_user es
  && before appends_user invokes_send es
  && before invokes_send appends_placeholder es.

(** The state once "hi" has been typed after the mount. *)
Definition typed_hi : AppState := run (onChange (lit "hi")) (mounted 0 false).

Definition placeholder (opened : Stamp) (fullResponseText : jsstring) : Message :=
  mkMessage (responseId_at opened) model fullResponseText (now_ts opened) None.

Definition texts (chunks : list GenerateContentResponse) : jsstring :=
  List.concat (List.map textChunk chunks).

Definition userMessage (c : Stamp) (st : AppState) : Message :=
  mkMessage (Number_toString (now_id c)) user (trim (inputText st)) (now_ts c) None.

Definition apology (failed : Stamp) : Message :=
  mkMessage (Number_toString (now_id failed)) model apology_text
            (now_ts failed) (Some true).

(** [handleAnalyze] with line 184 calling the gateway. *)
Definition analyze (analyzeConversation : list Message -> option AnalysisData)
  (st : AppState) : list Effect :=
  handleAnalyze (analyzeConversation (validHistory (messages st))) st.

(** The messages a list of effects appends. *)
Definition appends (es : list Effect) : list Message :=
  List.concat
    (List.map (fun e => match e with AppendMessage m => [m] | _ => [] end) es).

(** No effect of the list replaces the message list or rewrites a text. *)
Definition only_appends (es : list Effect) : bool :=
  forallb (fun e => match e with
                    | SetMessages _ | RewriteText _ _ => false
                    | _ => true
                    end) es.

(** A stream of the configuration that has been opened and is not over. *)
Definition in_flight (cfg : Config) (responseId : jsstring) : Prop :=
  exists k fullResponseText,
    tasks cfg !! k = Some (SendStreaming responseId fullResponseText).

(** What one step does to the message list. *)
Inductive history_step (cfg : Config) (old : list Message)
  : list Message -> Prop :=
| history_appended (extra : list Message) :
    history_step cfg old (old ++ extra)
| history_rewritten (responseId fullResponseText : jsstring) :
    in_flight cfg responseId ->
    history_step cfg old
      (List.map (rewrite_text responseId fullResponseText) old).


(** The greeting heads the list and every open stream has a response id
    made from the clock. *)
Definition greeted (now : Z) (cfg : Config) : Prop :=
  messages (app cfg) !! 0 = Some (initialGreeting now)
  /\ forall rid, in_flight cfg rid -> exists z, rid = Number_toString z.

(** What the view tests: the typing indicator on line 232 and the
    [isLoading] of the analysis panel on line 302. *)
Definition sending_active (st : AppState) : bool :=
  LoadingState_eqb (loadingState st) SENDING.

Definition analyzing_active (st : AppState) : bool :=
  LoadingState_eqb (loadingState st) ANALYZING.

(** A configuration in which an analysis is running and a new draft has
    been typed. *)
Definition analysing_events : list Event :=
  [ Change (lit "hi"); Submit (mkStamp 1000 1000);
    StreamOpened 0 (mkStamp 1005 1005); StreamEnd 0;
    Analyze; Change (lit "more") ].

Definition analysing_cfg : Config :=
  default (start 0 false) (run_events analysing_events (start 0 false)).

(** ** Further parts of the component *)

(** The condition of line 232 under which the typing indicator is
    rendered. *)
Definition typingIndicator (st : AppState) : bool :=
  LoadingState_eqb (loadingState st) SENDING
  && (0 <? length (messages st))
  && match list.last (messages st) with
     | Some m => match role m with user => true | model => false end
     | None => false
     end.

(** [disabled] of the send button (line 279). *)
Definition send_disabled (st : AppState) : bool :=
  negb (truthy (trim (inputText st)))
  || negb (LoadingState_eqb (loadingState st) IDLE).

(** The fields of the keyboard event that [handleKeyDown] reads. *)
Record KeyboardEvent : Type := mkKey {
  key : jsstring;
  shiftKey : bool
}.

(** [handleKeyDown] (lines 154-159): whether [preventDefault] was called,
    and the effects of the call of [handleSendMessage] it makes. *)
Definition handleKeyDown (e : KeyboardEvent) (c : Stamp) (g : StreamBehaviour)
  (st : AppState) : bool * list Effect :=
  if jsstring_eqb (key e) (lit "Enter") && negb (shiftKey e)
  then (true, handleSendMessage c g st)
  else (false, []).

(** A task of [handleSendMessage] that has not returned. *)
Definition send_running (t : Task) : bool :=
  match t with
  | SendAwaiting | SendStreaming _ _ => true
  | AnalyzeAwaiting | Settled => false
  end.

(** The event is a click on the analysis control. *)
Definition is_analyze (e : Event) : bool :=
  match e with Analyze => true | _ => false end.

(** No effect of the list sets anything of the speech capture. *)
Definition no_speech_effect (es : list Effect) : bool :=
  forallb (fun e => match e with
                    | SetIsListening _ | SetRecognition | SetBaseText _ => false
                    | _ => true
                    end) es.


(** The shape of every message after the greeting: an identifier made
    from the clock, and an error flag only on a reply. *)
Definition well_shaped (m : Message) : Prop :=
  (exists z, id m = Number_toString z)
  /\ (isError m = None \/ (isError m = Some true /\ role m = model)).

(** A busy activity state has its handler: Sending only with a send that
    has not returned, Analyzing only with an analysis that has not. *)
Definition accounted (cfg : Config) : Prop :=
  (loadingState (app cfg) = SENDING ->
   exists k t, tasks cfg !! k = Some t /\ send_running t = true)
  /\ (loadingState (app cfg) = ANALYZING ->
      exists k, tasks cfg !! k = Some AnalyzeAwaiting).

(** Idle with every handler returned, or Sending with exactly one send
    that has not, the last one started. *)
Definition one_send_at_most (cfg : Config) : Prop :=
  (loadingState (app cfg) = IDLE /\ Forall (fun t => t = Settled) (tasks cfg))
  \/ (loadingState (app cfg) = SENDING
      /\ exists returned t, tasks cfg = returned ++ [t]
                            /\ Forall (fun t => t = Settled) returned
                            /\ send_running t = true).

(** Nothing of the speech capture is set. *)
Definition speechless (st : AppState) : Prop :=
  recognition st = false /\ isListening st = false /\ baseText st = [].

(** Anything of an analysis is there: a stored result, the open overlay,
    the Analyzing state or a call that has not returned. *)
Definition analysis_touched (cfg : Config) : Prop :=
  analysisData (app cfg) <> None \/ showAnalysis (app cfg) = true
  \/ loadingState (app cfg) = ANALYZING
  \/ exists k, tasks cfg !! k = Some AnalyzeAwaiting.

(** ** A stream among other events *)

(** The text fragments of the chunks as the gateway sent them, in order;
    a chunk without text contributes nothing. *)
Definition received (chunks : list GenerateContentResponse) : jsstring :=
  List.concat (List.map (fun c => default [] (chunk_text c)) chunks).




(** Idle with every handler returned; or Sending with one send awaiting
    its stream and a user message last; or Sending with one stream open
    and a reply last. *)
Definition awaited_or_streaming (cfg : Config) : Prop :=
  (loadingState (app cfg) = IDLE
   /\ Forall (fun t => t = Settled) (tasks cfg))
  \/ (loadingState (app cfg) = SENDING
      /\ (exists returned, tasks cfg = returned ++ [SendAwaiting]
                           /\ Forall (fun t => t = Settled) returned)
      /\ (exists m, list.last (messages (app cfg)) = Some m /\ role m = user))
  \/ (loadingState (app cfg) = SENDING
      /\ (exists returned rid full,
            tasks cfg = returned ++ [SendStreaming rid full]
            /\ Forall (fun t => t = Settled) returned)
      /\ (exists m, list.last (messages (app cfg)) = Some m /\ role m = model)).

(** ** Strings: literals, identifiers and blank text *)

Section strings.

Lemma lit_inj (s t : string) : lit s = lit t -> s = t.
Proof.
  unfold lit. intros H.
  rewrite <- (string_of_list_ascii_of_string s),
          <- (string_of_list_ascii_of_string t).
  f_equal. revert H.
  generalize (list_ascii_of_string s) (list_ascii_of_string t).
  induction l as [|a l IH]; intros [|b l'] H; simpl in H; try discriminate.
  - reflexivity.
  - injection H as Hab Hl. f_equal; [|by apply IH].
    rewrite <- (ascii_N_embedding a), <- (ascii_N_embedding b).
    by rewrite Hab.
Qed.

Lemma to_int_proper (n : Z) : Z.to_int n <> Pos Nil /\ Z.to_int n <> Neg Nil.
Proof.
  destruct n as [|p|p]; simpl; split; try discriminate;
    intros H; injection H; apply DecimalPos.Unsigned.to_uint_nonnil.
Qed.

Lemma Number_toString_inj (m n : Z) :
  Number_toString m = Number_toString n -> m = n.
Proof.
  unfold Number_toString. intros H%lit_inj.
  apply DecimalZ.to_int_inj.
  destruct (to_int_proper m) as [Hm1 Hm2], (to_int_proper n) as [Hn1 Hn2].
  pose proof (NilZero.isi _ Hm1 Hm2) as Em.
  pose proof (NilZero.isi _ Hn1 Hn2) as En.
  rewrite H in Em. congruence.
Qed.


(** No identifier made from the clock is the greeting's ['init-1']. *)
Lemma Number_toString_not_init (n : Z) : Number_toString n <> lit "init-1".
Proof.
  unfold Number_toString. intros H%lit_inj.
  destruct (to_int_proper n) as [H1 H2].
  pose proof (NilZero.isi _ H1 H2) as E.
  rewrite H in E. vm_compute in E. discriminate.
Qed.

Lemma trimStart_blank (s : jsstring) :
  trimStart s = [] <-> forallb isWhiteSpace s = true.
Proof.
  induction s as [|c s IH]; simpl; [done|].
  destruct (isWhiteSpace c); simpl; [done|]. split; discriminate.
Qed.

Lemma trimStart_head (s : jsstring) c t :
  trimStart s = c :: t -> isWhiteSpace c = false.
Proof.
  induction s as [|d s IH]; simpl; [discriminate|].
  destruct (isWhiteSpace d) eqn:E; [done|]. by intros [= -> _].
Qed.

(** [s.trim()] is empty exactly when [s] is made of white space only
    (the empty string included). *)
Lemma trim_blank (s : jsstring) :
  truthy (trim s) = false <-> forallb isWhiteSpace s = true.
Proof.
  unfold trim, trimEnd. split.
  - intros H. destruct (trimStart s) as [|c t] eqn:E.
    + by apply trimStart_blank.
    + exfalso. apply trimStart_head in E as Hc.
      destruct (rev (trimStart (rev (c :: t)))) as [|x r] eqn:E2; [|done].
      apply (f_equal (@rev N)) in E2. rewrite rev_involutive in E2. simpl in E2.
      apply trimStart_blank in E2. rewrite forallb_app in E2.
      apply andb_true_iff in E2 as [_ E2]. simpl in E2. by rewrite Hc in E2.
  - intros H. apply trimStart_blank in H. by rewrite H.
Qed.

Lemma send_guard_returns_iff (st : AppState) :
  send_guard_returns st = true <->
  forallb isWhiteSpace (inputText st) = true \/ loadingState st <> IDLE.
Proof.
  unfold send_guard_returns. rewrite orb_true_iff, negb_true_iff, trim_blank.
  destruct (loadingState st); simpl; intuition congruence.
Qed.

End strings.

(** ** Running effect lists *)

Section running.

Lemma run_app (es es' : list Effect) (st : AppState) :
  run (es ++ es') st = run es' (run es st).
Proof. unfold run. by rewrite fold_left_app. Qed.

Lemma run_cons (e : Effect) (es : list Effect) (st : AppState) :
  run (e :: es) st = run es (apply e st).
Proof. reflexivity. Qed.

Lemma run_nil (st : AppState) : run [] st = st.
Proof. reflexivity. Qed.

End running.

(** ** Submitting: the guard *)

(** C2. When the draft is blank (empty or white space only), or when the
    activity state is not Idle, a call of the submit handler performs no
    effect at all, whatever the gateway would have done: the whole state
    (message list, draft, activity state, analysis result and the rest) is
    the state before, and no task is started. *)
Theorem submit_blank_or_busy_is_noop
  (st : AppState) (c : Stamp) (g : StreamBehaviour) (ts : list Task) :
  forallb isWhiteSpace (inputText st) = true \/ loadingState st <> IDLE ->
  handleSendMessage c g st = []
  /\ run (handleSendMessage c g st) st = st
  /\ step (Submit c) (mkConfig st ts) = Some (mkConfig st ts).
Proof.
  intros H%send_guard_returns_iff.
  unfold handleSendMessage, step. simpl. rewrite H. auto.
Qed.

Lemma submit_blank_or_busy_is_noop_witness :
  let st := mkApp [initialGreeting 0] (lit "  ") ANALYZING None true false false [] in
  let c := mkStamp 10 10 in
  handleSendMessage c (CallRejects c) st = []
  /\ run (handleSendMessage c (CallRejects c) st) st = st
  /\ step (Submit c) (mkConfig st [AnalyzeAwaiting])
     = Some (mkConfig st [AnalyzeAwaiting]).
Proof.
  intros st c.
  apply (submit_blank_or_busy_is_noop st c (CallRejects c) [AnalyzeAwaiting]).
  left. reflexivity.
Defined.

(** ** Speech input *)

Lemma fold_left_app_concat (segments : list jsstring) (acc : jsstring) :
  fold_left (fun a s => a ++ s) segments acc = acc ++ List.concat segments.
Proof.
  revert acc. induction segments as [|s segments IH]; intros acc; simpl.
  - by rewrite app_nil_r.
  - by rewrite IH, app_assoc.
Qed.

Lemma endsWith_space (s : jsstring) :
  endsWith s (lit " ")
  = match s with [] => false | _ :: _ => (List.last s 0 =? 0x20)%N end.
Proof.
  unfold endsWith. destruct s as [|c s _] using rev_ind; [done|].
  rewrite rev_app_distr, last_last.
  change (rev [c] ++ rev s) with (c :: rev s).
  change (rev (lit " ")) with [32%N]. cbn [startsWith].
  replace (startsWith (rev s) []) with true by (by destruct (rev s)).
  rewrite andb_true_r, N.eqb_sym. by destruct s.
Qed.

(** C8. A transcript event sets the draft to the baseline, then a single
    space only if the baseline is non-empty and does not already end in a
    space, then the whole accumulated transcript (all segments, in order);
    nothing else of the state changes. Baseline "Hi" with transcript
    "there" gives "Hi there"; baseline "" with "hello" gives "hello". *)
Theorem speech_result_recomputes_draft :
  (forall (segments : list jsstring) (st : AppState),
     let st' := run (recognition_onresult segments st) st in
     inputText st' = draft_from_speech (baseText st) (List.concat segments)
     /\ baseText st' = baseText st
     /\ messages st' = messages st
     /\ loadingState st' = loadingState st
     /\ analysisData st' = analysisData st)
  /\ (forall st, baseText st = lit "Hi" ->
        inputText (run (recognition_onresult [lit "there"] st) st)
        = lit "Hi there")
  /\ (forall st, baseText st = [] ->
        inputText (run (recognition_onresult [lit "hello"] st) st)
        = lit "hello").
Proof.
  split; [|split].
  - intros segments st. unfold recognition_onresult. simpl.
    repeat split. unfold draft_from_speech, separator_for.
    rewrite fold_left_app_concat, endsWith_space. simpl.
    destruct (baseText st) as [|b base]; [done|]. simpl truthy. cbv iota.
    rewrite andb_true_l.
    by destruct (List.last (b :: base) 0 =? 0x20)%N.
  - intros st H. unfold recognition_onresult. simpl. by rewrite H.
  - intros st H. unfold recognition_onresult. simpl. by rewrite H.
Qed.

Lemma speech_result_recomputes_draft_witness :
  let st := mkApp [] (lit "x") IDLE None false true true (lit "Hi") in
  inputText (run (recognition_onresult [lit "there"] st) st) = lit "Hi there".
Proof.
  intros st.
  apply (proj1 (proj2 speech_result_recomputes_draft) st). reflexivity.
Defined.

(** ** Submitting: the order of the effects *)

Lemma send_guard_passes (st : AppState) :
  forallb isWhiteSpace (inputText st) = false -> loadingState st = IDLE ->
  send_guard_returns st = false.
Proof.
  intros Hb Hl. destruct (send_guard_returns st) eqn:E; [|done].
  apply send_guard_returns_iff in E as [E|E]; congruence.
Qed.

(** C3, as stated, fails: on a submit of "hi" the draft is cleared before
    the user message is appended, and the gateway's send is invoked
    before the placeholder is appended. *)
Lemma submit_order_counterexample :
  let es := handleSendMessage (mkStamp 1000 1000)
              (StreamYields (mkStamp 1005 1005) [] None) typed_hi in
  es = [ SetInputText [];
         AppendMessage (mkMessage (lit "1000") user (lit "hi") 1000 None);
         SetLoadingState SENDING;
         GetChatSession;
         SendMessageStream (lit "hi");
         AppendMessage (mkMessage (lit "1006") model [] 1005 None);
         SetLoadingState IDLE ]
  /\ order_user_clear_placeholder_send es = false
  /\ before appends_user clears_draft es = false
  /\ before appends_placeholder invokes_send es = false.
Proof. vm_compute. auto. Qed.

(** C3, amended. For a non-blank draft while Idle, the handler first stops
    a running speech capture, then clears the draft, appends the finalized
    user message (the trimmed draft, no error flag), sets the activity state
    to Sending and invokes the gateway's send with the trimmed draft, in this
    order; the placeholder model message with empty text is appended only
    after the send call has returned a stream, and not at all when that call
    fails. *)
Theorem submit_effects_in_source_order (st : AppState) (c : Stamp) :
  forallb isWhiteSpace (inputText st) = false -> loadingState st = IDLE ->
  let userText := trim (inputText st) in
  let newMessage := mkMessage (Number_toString (now_id c)) user userText
                              (now_ts c) None in
  handleSendMessage_begin c st
  = (if isListening st && recognition st then [RecognitionStop] else [])
    ++ [ SetInputText []; AppendMessage newMessage; SetLoadingState SENDING;
         GetChatSession; SendMessageStream userText ]
  /\ (forall opened chunks raised,
        let es := handleSendMessage c (StreamYields opened chunks raised) st in
        exists rest,
          es = handleSendMessage_begin c st
               ++ AppendMessage
                    (mkMessage (responseId_at opened) model [] (now_ts opened) None)
               :: rest
          /\ order_clear_user_send_placeholder es = true)
  /\ (forall failed,
        let es := handleSendMessage c (CallRejects failed) st in
        before clears_draft appends_user es = true
        /\ before appends_user invokes_send es = true
        /\ position appends_placeholder es = None).
Proof.
  intros Hb Hl userText newMessage.
  pose proof (send_guard_passes st Hb Hl) as Hg.
  unfold handleSendMessage, handleSendMessage_begin. rewrite Hg.
  split; [done|]. split.
  - intros opened chunks raised. eexists. split; [reflexivity|].
    by destruct (isListening st && recognition st).
  - intros failed.
    by destruct (isListening st && recognition st).
Qed.

Lemma submit_effects_in_source_order_witness :
  let c := mkStamp 1000 1000 in
  handleSendMessage_begin c typed_hi
  = [ SetInputText [];
      AppendMessage (mkMessage (Number_toString 1000) user (trim (lit "hi")) 1000 None);
      SetLoadingState SENDING; GetChatSession;
      SendMessageStream (trim (lit "hi")) ]
  /\ position appends_placeholder
       (handleSendMessage c (CallRejects (mkStamp 1001 1001)) typed_hi) = None.
Proof.
  intros c.
  destruct (submit_effects_in_source_order typed_hi c) as (H1 & _ & H3);
    [reflexivity | reflexivity |].
  split; [exact H1 | apply (H3 (mkStamp 1001 1001))].
Defined.

(** ** Streaming a reply *)

Section streaming.

Lemma stream_loop_cons (rid full : jsstring) x (cs : list GenerateContentResponse) :
  stream_loop rid full (x :: cs)
  = RewriteText rid (full ++ textChunk x)
    :: stream_loop rid (full ++ textChunk x) cs.
Proof. reflexivity. Qed.

Lemma stream_loop_app (rid full : jsstring) (a b : list GenerateContentResponse) :
  stream_loop rid full (a ++ b)
  = stream_loop rid full a ++ stream_loop rid (full ++ texts a) b.
Proof.
  revert full. induction a as [|x a IH]; intros full; simpl.
  - unfold texts. simpl. by rewrite app_nil_r.
  - rewrite IH. unfold texts. simpl. by rewrite app_assoc.
Qed.

Lemma stream_loop_keeps (rid : jsstring) (chunks : list GenerateContentResponse) :
  forall full st,
    let st' := run (stream_loop rid full chunks) st in
    loadingState st' = loadingState st
    /\ inputText st' = inputText st
    /\ analysisData st' = analysisData st
    /\ length (messages st') = length (messages st).
Proof.
  induction chunks as [|x chunks IH]; intros full st; [done|].
  rewrite stream_loop_cons, run_cons.
  destruct (IH (full ++ textChunk x) (apply (RewriteText rid (full ++ textChunk x)) st))
    as (H1 & H2 & H3 & H4).
  simpl in *. rewrite H1, H2, H3, H4. by rewrite length_map.
Qed.


(** The message that carries the response id holds the text accumulated
    so far after every iteration. *)
Lemma stream_loop_lookup (rid : jsstring) (chunks : list GenerateContentResponse) :
  forall full st i m,
    messages st !! i = Some m -> id m = rid -> text m = full ->
    messages (run (stream_loop rid full chunks) st) !! i
    = Some (mkMessage rid (role m) (full ++ texts chunks) (timestamp m) (isError m)).
Proof.
  induction chunks as [|x chunks IH]; intros full st i m Hi Hid Ht.
  - simpl. unfold texts. simpl. rewrite app_nil_r, Hi.
    destruct m; simpl in *; by subst.
  - rewrite stream_loop_cons, run_cons.
    set (st1 := apply (RewriteText rid (full ++ textChunk x)) st).
    assert (messages st1 !! i
            = Some (mkMessage rid (role m) (full ++ textChunk x)
                              (timestamp m) (isError m))) as H1.
    { subst st1. simpl. rewrite list_lookup_fmap, Hi. simpl.
      unfold rewrite_text, jsstring_eqb.
      rewrite bool_decide_eq_true_2 by done. by rewrite Hid. }
    pose proof (IH (full ++ textChunk x) st1 i _ H1 eq_refl eq_refl) as H2.
    simpl in H2. rewrite H2.
    unfold texts. simpl. by rewrite app_assoc.
Qed.

Lemma run_begin (st : AppState) (c : Stamp) :
  send_guard_returns st = false ->
  let st' := run (handleSendMessage_begin c st) st in
  messages st'
  = messages st
    ++ [mkMessage (Number_toString (now_id c)) user (trim (inputText st))
                  (now_ts c) None]
  /\ inputText st' = []
  /\ loadingState st' = SENDING
  /\ analysisData st' = analysisData st
  /\ showAnalysis st' = showAnalysis st.
Proof.
  intros Hg. unfold handleSendMessage_begin. rewrite Hg.
  by destruct (isListening st && recognition st).
Qed.


Lemma handleSendMessage_exhausted (st : AppState) (c opened : Stamp)
  (chunks : list GenerateContentResponse) :
  send_guard_returns st = false ->
  handleSendMessage c (StreamYields opened chunks None) st
  = (handleSendMessage_begin c st ++ handleSendMessage_opened opened
     ++ stream_loop (responseId_at opened) [] chunks)
    ++ handleSendMessage_finally.
Proof.
  intros Hg. unfold handleSendMessage. rewrite Hg. cbv iota.
  by rewrite app_nil_r, <- !app_assoc.
Qed.

End streaming.


(** The specification's example: the text passes through "", "Hel",
    "Hello", the state being Sending each time and Idle at the end. *)
Example stream_Hel_lo :
  let chunks := [mkChunk (Some (lit "Hel")); mkChunk (Some (lit "lo"))] in
  let opened := mkStamp 1005 1005 in
  let after k :=
    run (handleSendMessage_begin (mkStamp 1000 1000) typed_hi
         ++ handleSendMessage_opened opened
         ++ stream_loop (responseId_at opened) [] (firstn k chunks)) typed_hi in
  let shown s := (text <$> messages s !! 2, loadingState s) in
  shown (after 0) = (Some [], SENDING)
  /\ shown (after 1) = (Some (lit "Hel"), SENDING)
  /\ shown (after 2) = (Some (lit "Hello"), SENDING)
  /\ shown (run (handleSendMessage (mkStamp 1000 1000)
                   (StreamYields opened chunks None) typed_hi) typed_hi)
     = (Some (lit "Hello"), IDLE).
Proof. vm_compute. auto. Qed.

(** ** A send that fails before the first chunk *)

(** C5, as stated, fails: when the stream has been opened and throws before
    its first chunk, two messages follow the user's message, the empty
    placeholder and the apology. *)
Lemma stream_failure_counterexample :
  let g := StreamYields (mkStamp 1005 1005) [] (Some (mkStamp 1010 1010)) in
  let st' := run (handleSendMessage (mkStamp 1000 1000) g typed_hi) typed_hi in
  messages st'
  = messages typed_hi
    ++ [ mkMessage (lit "1000") user (lit "hi") 1000 None;
         mkMessage (lit "1006") model [] 1005 None;
         mkMessage (lit "1010") model apology_text 1010 (Some true) ]
  /\ length (messages st') <> length (messages typed_hi) + 2.
Proof. vm_compute. split; [reflexivity | discriminate]. Qed.

(** C5, amended. For a non-blank draft while Idle: when the gateway's send
    call itself fails, the message list becomes the previous one, the
    user's message and one more message, the apology (the fixed text,
    [isError = true]); when the stream was opened and fails before its
    first chunk, the empty placeholder stays where it was appended and the
    apology follows it. In both cases the activity state is Idle at the
    end. *)
Theorem send_failure_appends_apology (st : AppState) (c : Stamp) :
  forallb isWhiteSpace (inputText st) = false -> loadingState st = IDLE ->
  (forall failed,
     let st' := run (handleSendMessage c (CallRejects failed) st) st in
     messages st' = messages st ++ [userMessage c st; apology failed]
     /\ loadingState st' = IDLE)
  /\ (forall opened failed,
        let st' := run (handleSendMessage c
                          (StreamYields opened [] (Some failed)) st) st in
        messages st'
        = messages st ++ [userMessage c st; placeholder opened []; apology failed]
        /\ loadingState st' = IDLE)
  /\ isError (apology c) = Some true
  /\ text (apology c) = apology_text.
Proof.
  intros Hb Hl. pose proof (send_guard_passes st Hb Hl) as Hg.
  destruct (run_begin st c Hg) as (Hm & _).
  split; [|split; [|done]].
  - intros failed st'. subst st'. unfold handleSendMessage. rewrite Hg.
    rewrite run_app. simpl. rewrite Hm, <- app_assoc. done.
  - intros opened failed st'. subst st'. unfold handleSendMessage. rewrite Hg.
    rewrite run_app. simpl. rewrite Hm, <- !app_assoc. done.
Qed.

Lemma send_failure_appends_apology_witness :
  let c := mkStamp 1000 1000 in
  let failed := mkStamp 1010 1010 in
  let st' := run (handleSendMessage c (CallRejects failed) typed_hi) typed_hi in
  messages st' = messages typed_hi ++ [userMessage c typed_hi; apology failed]
  /\ loadingState st' = IDLE.
Proof.
  intros c failed.
  destruct (send_failure_appends_apology typed_hi c) as (H & _);
    [reflexivity | reflexivity |].
  apply (H failed).
Defined.

(** ** Analysis *)

Lemma analyze_guard_passes (st : AppState) :
  3 <= length (messages st) -> (length (messages st) <? 3) = false.
Proof. intros H. apply Nat.ltb_ge. lia. Qed.

(** C6, as stated, fails: after one analysis has succeeded, a second one
    that fails leaves the first result in place; the overlay is open with
    that earlier data, not without data. *)
Lemma analysis_failure_counterexample :
  let d := mkAnalysisData (lit "calm") [] [] (lit "ok") [] in
  let evs := [ Change (lit "hi"); Submit (mkStamp 1000 1000);
               StreamOpened 0 (mkStamp 1005 1005); StreamEnd 0;
               Analyze; AnalysisComplete 1 d;
               Analyze; AnalysisError 2 ] in
  exists cfg,
    run_events evs (start 0 false) = Some cfg
    /\ analysisData (app cfg) = Some d
    /\ analysisData (app cfg) <> None
    /\ showAnalysis (app cfg) = true
    /\ loadingState (app cfg) = IDLE.
Proof. eexists. vm_compute. repeat split. discriminate. Qed.

(** C6, amended. For a conversation of three or more messages: when the
    analysis succeeds the stored result is replaced by the new data; when
    it fails the stored result is left as it was (none if no analysis had
    succeeded before, the earlier result otherwise). In both cases no
    message is added or changed, the overlay is open and the activity state
    is Idle at the end. *)
Theorem analysis_result_replaced_or_kept (st : AppState) :
  3 <= length (messages st) ->
  (forall data,
     let st' := run (handleAnalyze (Some data) st) st in
     analysisData st' = Some data
     /\ messages st' = messages st
     /\ showAnalysis st' = true
     /\ loadingState st' = IDLE)
  /\ (let st' := run (handleAnalyze None st) st in
      analysisData st' = analysisData st
      /\ messages st' = messages st
      /\ showAnalysis st' = true
      /\ loadingState st' = IDLE).
Proof.
  intros H%analyze_guard_passes.
  unfold handleAnalyze, handleAnalyze_begin. rewrite H. simpl. auto.
Qed.

Lemma analysis_result_replaced_or_kept_witness :
  let st := mkApp [initialGreeting 0; initialGreeting 1; initialGreeting 2]
                  [] IDLE None false false false [] in
  let st' := run (handleAnalyze None st) st in
  analysisData st' = None /\ messages st' = messages st
  /\ showAnalysis st' = true /\ loadingState st' = IDLE.
Proof.
  intros st.
  apply (proj2 (analysis_result_replaced_or_kept st ltac:(simpl; lia))).
Defined.

Section analysis.

(** The gateway's [analyzeConversation]: the data it resolves to for a
    history, [None] when it throws. *)
Variable analyzeConversation : list Message -> option AnalysisData.

Lemma validHistory_spec (msgs : list Message) (m : Message) :
  In m (validHistory msgs)
  <-> In m msgs /\ isError m <> Some true
      /\ forallb isWhiteSpace (text m) = false.
Proof.
  unfold validHistory. rewrite filter_In, andb_true_iff.
  assert (isError_falsy m = true <-> isError m <> Some true) as ->.
  { unfold isError_falsy. destruct (isError m) as [[|]|]; intuition congruence. }
  assert (truthy (trim (text m)) = true
          <-> forallb isWhiteSpace (text m) = false) as ->; [|done].
  pose proof (trim_blank (text m)).
  destruct (truthy (trim (text m))), (forallb isWhiteSpace (text m));
    intuition congruence.
Qed.

Lemma validHistory_sublist (msgs : list Message) :
  validHistory msgs `sublist_of` msgs.
Proof.
  unfold validHistory. induction msgs as [|m msgs IH]; simpl; [constructor|].
  destruct (isError_falsy m && truthy (trim (text m))); by constructor.
Qed.

(** C7. With fewer than three messages the analyse handler does nothing
    and the state is unchanged. With three or more, the history it passes
    to the gateway is the message list filtered, in order, to exactly the
    messages whose [isError] is falsy and whose text is not blank; when the
    gateway resolves, the data it computed from that history is stored
    (a value, not null), so two conversations with the same filtered
    history store the same result. *)
Theorem analyze_filters_history (st : AppState) :
  (length (messages st) < 3 -> analyze analyzeConversation st = [] /\ run (analyze analyzeConversation st) st = st)
  /\ (3 <= length (messages st) ->
      let history := validHistory (messages st) in
      (exists after,
         analyze analyzeConversation st = [ SetShowAnalysis true; SetLoadingState ANALYZING;
                        AnalyzeConversation history ] ++ after
         /\ Forall (fun e => forall h, e <> AnalyzeConversation h) after)
      /\ (forall m, In m history
                    <-> In m (messages st) /\ isError m <> Some true
                        /\ forallb isWhiteSpace (text m) = false)
      /\ history `sublist_of` messages st
      /\ (forall data, analyzeConversation history = Some data ->
            analysisData (run (analyze analyzeConversation st) st) = Some data
            /\ loadingState (run (analyze analyzeConversation st) st) = IDLE)
      /\ (forall st2 data, 3 <= length (messages st2) ->
            validHistory (messages st2) = history ->
            analyzeConversation history = Some data ->
            analysisData (run (analyze analyzeConversation st2) st2) = Some data)).
Proof.
  split.
  - intros H. unfold analyze, handleAnalyze.
    by replace (length (messages st) <? 3) with true
      by (symmetry; apply Nat.ltb_lt; lia).
  - intros H history. pose proof (analyze_guard_passes st H) as Hg.
    assert (forall s data, 3 <= length (messages s) ->
              analyzeConversation (validHistory (messages s)) = Some data ->
              analysisData (run (analyze analyzeConversation s) s) = Some data
              /\ loadingState (run (analyze analyzeConversation s) s) = IDLE) as Hstore.
    { intros s data Hs%analyze_guard_passes Hd.
      unfold analyze, handleAnalyze, handleAnalyze_begin. by rewrite Hs, Hd. }
    split; [|split; [|split; [|split]]].
    + unfold analyze, handleAnalyze, handleAnalyze_begin. rewrite Hg.
      eexists. split; [reflexivity|].
      destruct (analyzeConversation _); repeat constructor; discriminate.
    + intros m. apply validHistory_spec.
    + apply validHistory_sublist.
    + intros data Hd. by apply Hstore.
    + intros st2 data H2 Heq Hd. apply Hstore; [done|]. by rewrite Heq.
Qed.

End analysis.

Lemma analyze_filters_history_witness :
  let gateway := fun h : list Message =>
    Some (mkAnalysisData (lit "calm") [] [] (lit "ok") []) in
  let st := mkApp [initialGreeting 0;
                   mkMessage (lit "7") user (lit " ") 7 None;
                   mkMessage (lit "9") model apology_text 9 (Some true)]
                  [] IDLE None false false false [] in
  validHistory (messages st) `sublist_of` messages st
  /\ analysisData (run (analyze gateway st) st)
     = Some (mkAnalysisData (lit "calm") [] [] (lit "ok") []).
Proof.
  intros gateway st.
  destruct (proj2 (analyze_filters_history gateway st) ltac:(simpl; lia))
    as (_ & _ & H3 & H4 & _).
  split; [exact H3 | apply (H4 _ eq_refl)].
Defined.

(** ** The message list along the steps of the machine *)

Section history.

Lemma run_only_appends (es : list Effect) :
  only_appends es = true ->
  forall st, messages (run es st) = messages st ++ appends es.
Proof.
  induction es as [|e es IH]; intros H st.
  - simpl. by rewrite app_nil_r.
  - simpl in H. apply andb_true_iff in H as [He Hes].
    rewrite run_cons, (IH Hes). unfold appends. simpl.
    destruct e; simpl; try done. by rewrite <- app_assoc.
Qed.

Lemma begin_only_appends (c : Stamp) (st : AppState) :
  only_appends (handleSendMessage_begin c st) = true.
Proof.
  unfold handleSendMessage_begin.
  destruct (send_guard_returns st); [done|].
  by destruct (isListening st && recognition st).
Qed.

Lemma analyze_begin_only_appends (st : AppState) :
  only_appends (handleAnalyze_begin st) = true
  /\ appends (handleAnalyze_begin st) = [].
Proof.
  unfold handleAnalyze_begin. by destruct (length (messages st) <? 3).
Qed.

Lemma toggle_only_appends (st : AppState) :
  only_appends (toggleVoiceInput st) = true
  /\ appends (toggleVoiceInput st) = [].
Proof.
  unfold toggleVoiceInput.
  by destruct (negb (recognition st)), (isListening st).
Qed.

Lemma step_history (e : Event) (cfg cfg' : Config) :
  step e cfg = Some cfg' ->
  history_step cfg (messages (app cfg)) (messages (app cfg')).
Proof.
  intros H.
  assert (forall es ts, only_appends es = true ->
            history_step cfg (messages (app cfg))
              (messages (app (mkConfig (run es (app cfg)) ts)))) as Happ.
  { intros es ts Hes. simpl. rewrite (run_only_appends es Hes). constructor. }
  assert (history_step cfg (messages (app cfg)) (messages (app cfg))) as Hsame.
  { rewrite <- (app_nil_r (messages (app cfg))) at 2. constructor. }
  destruct e; simpl in H; unfold act, spawn, continue in H.
  - simplify_eq. by apply Happ.
  - destruct (send_guard_returns (app cfg)); simplify_eq; [done|].
    apply Happ, begin_only_appends.
  - repeat case_match; simplify_eq. by apply Happ.
  - repeat case_match; simplify_eq. simpl.
    eapply history_rewritten. by eexists _, _.
  - repeat case_match; simplify_eq. by apply Happ.
  - repeat case_match; simplify_eq; by apply Happ.
  - destruct (analyze_disabled (app cfg)); simplify_eq; [done|].
    apply Happ, analyze_begin_only_appends.
  - repeat case_match; simplify_eq. by apply Happ.
  - repeat case_match; simplify_eq. by apply Happ.
  - simplify_eq. by apply Happ.
  - simplify_eq. apply Happ, toggle_only_appends.
  - repeat case_match; simplify_eq. by apply Happ.
  - repeat case_match; simplify_eq. by apply Happ.
  - repeat case_match; simplify_eq. by apply Happ.
Qed.



End history.



(** ** Reachable configurations *)

Section reachability.

Lemma step_in_flight (e : Event) (cfg cfg' : Config) (rid : jsstring) :
  step e cfg = Some cfg' -> in_flight cfg' rid ->
  in_flight cfg rid \/ exists z, rid = Number_toString z.
Proof.
  intros H (k & full & Hk).
  assert (forall t, t <> SendStreaming rid full ->
            (tasks cfg ++ [t]) !! k = Some (SendStreaming rid full) ->
            in_flight cfg rid) as Hspawn.
  { intros t Ht Hl.
    apply lookup_app_Some in Hl as [Hl | [_ Hl]]; [by eexists _, _|].
    destruct (k - length (tasks cfg)); simpl in Hl; by simplify_eq. }
  assert (forall j t,
            (forall f, t = SendStreaming rid f ->
               in_flight cfg rid \/ exists z, rid = Number_toString z) ->
            <[j := t]> (tasks cfg) !! k = Some (SendStreaming rid full) ->
            in_flight cfg rid \/ exists z, rid = Number_toString z) as Hcont.
  { intros j t Ht Hl.
    apply list_lookup_insert_Some in Hl as [(-> & -> & _) | [_ Hl]].
    - by eapply Ht.
    - left. by eexists _, _. }
  assert (tasks cfg !! k = Some (SendStreaming rid full) ->
          in_flight cfg rid) as Hact.
  { intros Hl. by eexists _, _. }
  destruct e; simpl in H; unfold act, spawn, continue in H;
    repeat case_match; simplify_eq; cbn [tasks] in Hk;
    try (left; exact (Hact Hk));
    try (left; apply (fun F => Hspawn _ F Hk); discriminate);
    try (apply (fun F => Hcont _ _ F Hk); intros f Hf; simplify_eq).
  - right. by eexists.
  - left. by eexists _, _.
Qed.

Lemma greeted_start (now : Z) (speech : bool) : greeted now (start now speech).
Proof.
  split; [by destruct speech|].
  intros rid (k & full & H). by destruct speech, k.
Qed.

Lemma greeted_step (now : Z) (e : Event) (cfg cfg' : Config) :
  greeted now cfg -> step e cfg = Some cfg' -> greeted now cfg'.
Proof.
  intros [Hm Hf] H. split.
  - destruct (step_history e cfg cfg' H) as [extra | rid t Hrid].
    + by apply lookup_app_l_Some.
    + rewrite list_lookup_fmap, Hm. simpl. f_equal.
      destruct (Hf rid Hrid) as [z ->].
      unfold rewrite_text, jsstring_eqb. simpl.
      rewrite bool_decide_eq_false_2; [done|].
      intros E. by apply (Number_toString_not_init z).
  - intros rid Hrid.
    destruct (step_in_flight e cfg cfg' rid H Hrid) as [Hold | Hz]; auto.
Qed.

Lemma greeted_run (now : Z) (evs : list Event) :
  forall cfg cfg',
    greeted now cfg -> run_events evs cfg = Some cfg' -> greeted now cfg'.
Proof.
  induction evs as [|e evs IH]; intros cfg cfg' Hg H; simpl in H.
  - by simplify_eq.
  - destruct (step e cfg) as [cfg1|] eqn:E; [|done].
    eapply IH; [|done]. by eapply greeted_step.
Qed.

Lemma run_events_app (evs evs' : list Event) (cfg : Config) :
  run_events (evs ++ evs') cfg
  = match run_events evs cfg with
    | Some cfg' => run_events evs' cfg'
    | None => None
    end.
Proof.
  revert cfg. induction evs as [|e evs IH]; intros cfg; simpl; [done|].
  destruct (step e cfg); [apply IH | done].
Qed.

(** The deltas of one stream, with nothing in between, are the loop of
    the handler. *)
Lemma run_deltas (k : nat) (rid : jsstring)
  (chunks : list GenerateContentResponse) :
  forall full st ts,
    ts !! k = Some (SendStreaming rid full) ->
    run_events (List.map (Delta k) chunks) (mkConfig st ts)
    = Some (mkConfig (run (stream_loop rid full chunks) st)
                     (<[k := SendStreaming rid (full ++ texts chunks)]> ts)).
Proof.
  induction chunks as [|x chunks IH]; intros full st ts Hk.
  - simpl. unfold texts. simpl. rewrite app_nil_r.
    by rewrite list_insert_id.
  - simpl. rewrite Hk. unfold continue. simpl.
    rewrite (IH (full ++ textChunk x)).
    + rewrite list_insert_insert_eq. unfold texts. simpl.
      by rewrite app_assoc.
    + apply list_lookup_insert_eq. by eapply lookup_lt_Some.
Qed.

(** A send that nothing interrupts goes through the machine as the whole
    call of the handler. *)
Lemma uninterrupted_send (st : AppState) (ts : list Task) (c opened : Stamp)
  (chunks : list GenerateContentResponse) :
  send_guard_returns st = false ->
  let k := length ts in
  run_events ([Submit c; StreamOpened k opened]
              ++ List.map (Delta k) chunks ++ [StreamEnd k]) (mkConfig st ts)
  = Some (mkConfig
            (run (handleSendMessage c (StreamYields opened chunks None) st) st)
            (ts ++ [Settled])).
Proof.
  intros Hg k. rewrite handleSendMessage_exhausted by done.
  cbn [List.app run_events step]. cbn [Machine.app tasks]. rewrite Hg.
  unfold spawn. cbn [Machine.app tasks].
  assert ((ts ++ [SendAwaiting]) !! k = Some SendAwaiting) as ->.
  { rewrite lookup_app_r by (subst k; lia).
    by replace (k - length ts) with 0 by (subst k; lia). }
  unfold continue. cbn [Machine.app tasks].
  assert (<[k := SendStreaming (responseId_at opened) []]> (ts ++ [SendAwaiting])
          = ts ++ [SendStreaming (responseId_at opened) []]) as ->.
  { rewrite insert_app_r_alt by (subst k; lia).
    by replace (k - length ts) with 0 by (subst k; lia). }
  rewrite run_events_app, (run_deltas k (responseId_at opened) chunks []).
  - cbn [run_events step]. cbn [Machine.app tasks].
    rewrite list_lookup_insert_eq by (rewrite length_app; simpl; subst k; lia).
    unfold continue. cbn [Machine.app tasks].
    rewrite list_insert_insert_eq, insert_app_r_alt by (subst k; lia).
    replace (k - length ts) with 0 by (subst k; lia).
    by rewrite !run_app.
  - rewrite lookup_app_r by (subst k; lia).
    by replace (k - length ts) with 0 by (subst k; lia).
Qed.

End reachability.

(** ** The greeting *)

Lemma validHistory_head (now : Z) (msgs : list Message) :
  msgs !! 0 = Some (initialGreeting now) ->
  validHistory msgs !! 0 = Some (initialGreeting now).
Proof. destruct msgs as [|m msgs]; [done|]. by intros [= ->]. Qed.

Lemma exchange_state (st : AppState) (c opened : Stamp)
  (chunks : list GenerateContentResponse) :
  send_guard_returns st = false ->
  let st' := run (handleSendMessage c (StreamYields opened chunks None) st) st in
  length (messages st') = length (messages st) + 2
  /\ loadingState st' = IDLE.
Proof.
  intros Hg st'. subst st'. rewrite handleSendMessage_exhausted by done.
  rewrite !run_app. split; [|done].
  destruct (run_begin st c Hg) as (Hm & _).
  set (st1 := run (handleSendMessage_begin c st) st) in *.
  set (st2 := run (handleSendMessage_opened opened) st1).
  destruct (stream_loop_keeps (responseId_at opened) chunks [] st2)
    as (_ & _ & _ & Hlen).
  change (length (messages (run (stream_loop (responseId_at opened) [] chunks) st2))
          = length (messages st) + 2).
  rewrite Hlen. subst st2. simpl. rewrite Hm, !length_app. simpl. lia.
Qed.

(** C10. Once the mount effects have run the conversation is exactly one
    message, the greeting: role model, the fixed non-blank text, no error
    flag; with it alone the analysis control is disabled. In every
    configuration reached from there the greeting is still the first
    message and the first entry of the history filtered for the analysis.
    After one exchange (a non-blank draft typed and submitted, the stream
    opened, any chunks, the stream ended) there are three messages, the
    control is enabled and a click starts an analysis. *)
Theorem greeting_counts_and_is_analysed (now : Z) (speech : bool) :
  messages (mounted now speech) = [initialGreeting now]
  /\ (role (initialGreeting now) = model
      /\ isError (initialGreeting now) = None
      /\ text (initialGreeting now) = greeting_text
      /\ forallb isWhiteSpace greeting_text = false)
  /\ analyze_disabled (mounted now speech) = true
  /\ (forall cfg, reachable_from now speech cfg ->
        messages (app cfg) !! 0 = Some (initialGreeting now)
        /\ validHistory (messages (app cfg)) !! 0 = Some (initialGreeting now))
  /\ (forall v c opened chunks,
        forallb isWhiteSpace v = false ->
        exists cfg cfg',
          run_events (Change v :: [Submit c; StreamOpened 0 opened]
                      ++ List.map (Delta 0) chunks ++ [StreamEnd 0])
                     (start now speech) = Some cfg
          /\ length (messages (app cfg)) = 3
          /\ analyze_disabled (app cfg) = false
          /\ step Analyze cfg = Some cfg'
          /\ loadingState (app cfg') = ANALYZING).
Proof.
  split; [by destruct speech|]. split; [done|]. split; [by destruct speech|].
  split.
  - intros cfg [evs Hevs].
    destruct (greeted_run now evs _ _ (greeted_start now speech) Hevs) as [H _].
    split; [done|]. by apply validHistory_head.
  - intros v c opened chunks Hv.
    set (st1 := run (onChange v) (mounted now speech)).
    assert (send_guard_returns st1 = false) as Hg.
    { apply send_guard_passes; subst st1; by destruct speech. }
    assert (length (messages st1) = 1) as Hlen1 by (subst st1; by destruct speech).
    destruct (exchange_state st1 c opened chunks Hg) as (Hlen & Hidle).
    set (st' := run (handleSendMessage c (StreamYields opened chunks None) st1) st1)
      in *.
    assert (analyze_disabled st' = false) as Hdis.
    { unfold analyze_disabled. rewrite Hlen, Hlen1, Hidle. done. }
    exists (mkConfig st' [Settled]). eexists.
    split; [|split; [|split; [|split]]].
    + change (run_events _ _) with
        (run_events ([Submit c; StreamOpened (length (@nil Task)) opened]
                     ++ List.map (Delta (length (@nil Task))) chunks
                     ++ [StreamEnd (length (@nil Task))]) (mkConfig st1 [])).
      by rewrite uninterrupted_send.
    + simpl. lia.
    + done.
    + simpl. rewrite Hdis. reflexivity.
    + simpl. unfold handleAnalyze_begin.
      by replace (length (messages st') <? 3) with false
        by (rewrite Hlen, Hlen1; done).
Qed.

Lemma greeting_counts_and_is_analysed_witness :
  exists cfg cfg',
    run_events (Change (lit "hi")
                :: [Submit (mkStamp 1000 1000); StreamOpened 0 (mkStamp 1005 1005)]
                ++ List.map (Delta 0) [mkChunk (Some (lit "Hello"))]
                ++ [StreamEnd 0])
               (start 0 false) = Some cfg
    /\ length (messages (app cfg)) = 3
    /\ analyze_disabled (app cfg) = false
    /\ step Analyze cfg = Some cfg'
    /\ loadingState (app cfg') = ANALYZING.
Proof.
  destruct (greeting_counts_and_is_analysed 0 false) as (_ & _ & _ & _ & H).
  apply (H (lit "hi") (mkStamp 1000 1000) (mkStamp 1005 1005)
           [mkChunk (Some (lit "Hello"))]).
  reflexivity.
Defined.

(** ** The gates on the activity state *)

(** C1, as stated, fails: while a reply is streaming (activity state
    Sending, three messages) the analysis control is enabled and a click
    starts an analysis: the state becomes Analyzing with the stream still
    in flight; when the analysis completes the state is Idle although the
    stream goes on, and its next delta is still applied. *)
Lemma analyze_while_sending_counterexample :
  let d := mkAnalysisData (lit "calm") [] [] (lit "ok") [] in
  let evs := [ Change (lit "hi"); Submit (mkStamp 1000 1000);
               StreamOpened 0 (mkStamp 1005 1005) ] in
  exists cfg cfg' cfg'',
    run_events evs (start 0 false) = Some cfg
    /\ loadingState (app cfg) = SENDING
    /\ step Analyze cfg = Some cfg'
    /\ cfg' <> cfg
    /\ loadingState (app cfg') = ANALYZING
    /\ tasks cfg' = [SendStreaming (lit "1006") []; AnalyzeAwaiting]
    /\ run_events [ Delta 0 (mkChunk (Some (lit "Hel"))); AnalysisComplete 1 d;
                    Delta 0 (mkChunk (Some (lit "lo"))) ] cfg' = Some cfg''
    /\ loadingState (app cfg'') = IDLE
    /\ tasks cfg'' = [SendStreaming (lit "1006") (lit "Hello"); Settled].
Proof.
  do 3 eexists. vm_compute. repeat split. discriminate.
Qed.

(** C1, amended. In every reachable configuration the activity state is a
    single value, so Sending and Analyzing are never both active. The send
    operation is gated behind Idle: a submit while the state is Analyzing
    or Sending changes nothing. The analyse operation is gated on the
    number of messages and on not being Analyzing already: with fewer than
    three messages the handler does nothing, and a click on the control
    with fewer than three messages or while Analyzing changes nothing. *)
Theorem activity_gates (cfg : Config) :
  reachable cfg ->
  (sending_active (app cfg) && analyzing_active (app cfg) = false)
  /\ (loadingState (app cfg) <> IDLE ->
      forall c, step (Submit c) cfg = Some cfg)
  /\ (length (messages (app cfg)) < 3 ->
      handleAnalyze_begin (app cfg) = []
      /\ forall outcome, handleAnalyze outcome (app cfg) = [])
  /\ (length (messages (app cfg)) < 3 \/ loadingState (app cfg) = ANALYZING ->
      step Analyze cfg = Some cfg).
Proof.
  intros _. split; [|split; [|split]].
  - unfold sending_active, analyzing_active. by destruct (loadingState (app cfg)).
  - intros H c. simpl.
    by replace (send_guard_returns (app cfg)) with true
      by (symmetry; apply send_guard_returns_iff; auto).
  - intros H. unfold handleAnalyze, handleAnalyze_begin.
    by replace (length (messages (app cfg)) <? 3) with true
      by (symmetry; apply Nat.ltb_lt; lia).
  - intros H. simpl. unfold analyze_disabled.
    replace ((length (messages (app cfg)) <? 3)
             || LoadingState_eqb (loadingState (app cfg)) ANALYZING) with true;
      [done|].
    symmetry. apply orb_true_iff. destruct H as [H | ->]; [left | by right].
    apply Nat.ltb_lt. lia.
Qed.

Lemma activity_gates_witness :
  loadingState (app analysing_cfg) = ANALYZING
  /\ inputText (app analysing_cfg) = lit "more"
  /\ step (Submit (mkStamp 2000 2000)) analysing_cfg = Some analysing_cfg
  /\ step Analyze analysing_cfg = Some analysing_cfg.
Proof.
  destruct (activity_gates analysing_cfg) as (_ & H2 & _ & H4).
  - exists 0%Z, false, analysing_events. reflexivity.
  - split; [reflexivity|]. split; [reflexivity|]. split.
    + apply H2. discriminate.
    + apply H4. right. reflexivity.
Defined.

(** ** The text of the user's message *)

Section trimming.

Lemma trimStart_split (s : jsstring) :
  exists l, s = l ++ trimStart s /\ forallb isWhiteSpace l = true.
Proof.
  induction s as [|c s (l & Hs & Hl)]; [by exists []|].
  simpl. destruct (isWhiteSpace c) eqn:E.
  - exists (c :: l). simpl. rewrite E, Hl. split; [by f_equal|done].
  - by exists [].
Qed.

Lemma forallb_reverse {A} (p : A -> bool) (l : list A) :
  forallb p (rev l) = forallb p l.
Proof.
  induction l as [|a l IH]; simpl; [done|].
  rewrite forallb_app, IH. simpl. by destruct (p a), (forallb p l).
Qed.

Lemma trimEnd_split (s : jsstring) :
  exists r, s = trimEnd s ++ r /\ forallb isWhiteSpace r = true.
Proof.
  unfold trimEnd. destruct (trimStart_split (rev s)) as (l & Hs & Hl).
  exists (rev l). split; [|by rewrite forallb_reverse].
  rewrite <- rev_app_distr, <- Hs. by rewrite rev_involutive.
Qed.

(** [trim] removes white space at both ends and nothing else. *)
Lemma trim_split (s : jsstring) :
  exists l r, s = l ++ trim s ++ r
              /\ forallb isWhiteSpace l = true
              /\ forallb isWhiteSpace r = true.
Proof.
  destruct (trimStart_split s) as (l & Hs & Hl).
  destruct (trimEnd_split (trimStart s)) as (r & Ht & Hr).
  exists l, r. unfold trim. by rewrite <- Ht.
Qed.

Lemma trimEnd_last (s : jsstring) (z : N) :
  list.last (trimEnd s) = Some z -> isWhiteSpace z = false.
Proof.
  unfold trimEnd. destruct (trimStart (rev s)) as [|c t] eqn:E; [done|].
  simpl. rewrite last_snoc. intros [= <-]. by eapply trimStart_head.
Qed.

Lemma trimEnd_head (s : jsstring) (a : N) :
  head (trimEnd s) = Some a -> head s = Some a.
Proof.
  destruct (trimEnd_split s) as (r & Hs & _). intros H.
  rewrite Hs. by destruct (trimEnd s).
Qed.

Lemma trim_ends (s : jsstring) :
  (forall a, head (trim s) = Some a -> isWhiteSpace a = false)
  /\ (forall z, list.last (trim s) = Some z -> isWhiteSpace z = false).
Proof.
  unfold trim. split.
  - intros a H%trimEnd_head. destruct (trimStart s) as [|c t] eqn:E; [done|].
    simpl in H. injection H as <-. by eapply trimStart_head.
  - apply trimEnd_last.
Qed.

Lemma trim_not_blank (s : jsstring) :
  truthy (trim s) = true -> forallb isWhiteSpace (trim s) = false.
Proof.
  intros H. destruct (trim s) as [|a t] eqn:E; [done|].
  destruct (trim_ends s) as [Hh _]. rewrite E in Hh.
  simpl. by rewrite (Hh a eq_refl).
Qed.

(** Trimming twice is trimming once. *)
Lemma trim_idempotent (s : jsstring) : trim (trim s) = trim s.
Proof.
  destruct (trim_ends s) as [Hh Hl].
  assert (forall t, (forall a, head t = Some a -> isWhiteSpace a = false) ->
                    trimStart t = t) as Hstart.
  { intros [|a t] H; [done|]. simpl. by rewrite (H a eq_refl). }
  unfold trim at 1. rewrite (Hstart _ Hh).
  unfold trimEnd. rewrite Hstart; [apply rev_involutive|].
  intros a Ha. apply Hl. rewrite <- Ha.
  generalize (trim s). intros t. destruct t as [|x t] using rev_ind; [done|].
  by rewrite rev_app_distr, last_snoc.
Qed.

End trimming.

Lemma send_guard_passes_iff (st : AppState) :
  send_guard_returns st = false <->
  forallb isWhiteSpace (inputText st) = false /\ loadingState st = IDLE.
Proof.
  split; [|intros [? ?]; by apply send_guard_passes].
  intros H. pose proof (send_guard_returns_iff st) as Hi.
  destruct (forallb isWhiteSpace (inputText st)), (loadingState st);
    split; try done; exfalso;
    (assert (send_guard_returns st = true) as E
       by (apply Hi; auto; right; discriminate)); congruence.
Qed.

(** The message a submit stores is the draft without the white space
    around it: the only message the first part of the handler appends has
    role user, no error flag and a text that is not empty, neither starts
    nor ends with white space, and differs from the draft only by white
    space removed at both ends; it therefore passes the filter of the
    analysis. *)
Theorem user_message_is_trimmed_draft (st : AppState) (c : Stamp) :
  forallb isWhiteSpace (inputText st) = false -> loadingState st = IDLE ->
  let m := userMessage c st in
  appends (handleSendMessage_begin c st) = [m]
  /\ role m = user /\ isError m = None
  /\ text m <> []
  /\ (forall a, head (text m) = Some a -> isWhiteSpace a = false)
  /\ (forall z, list.last (text m) = Some z -> isWhiteSpace z = false)
  /\ (exists l r, inputText st = l ++ text m ++ r
                  /\ forallb isWhiteSpace l = true
                  /\ forallb isWhiteSpace r = true)
  /\ validHistory [m] = [m].
Proof.
  intros Hb Hl m. pose proof (send_guard_passes st Hb Hl) as Hg.
  assert (truthy (trim (inputText st)) = true) as Ht.
  { destruct (truthy (trim (inputText st))) eqn:E; [done|].
    apply trim_blank in E. congruence. }
  split.
  { unfold handleSendMessage_begin. rewrite Hg.
    by destruct (isListening st && recognition st). }
  split; [done|]. split; [done|]. split.
  { subst m. simpl. by destruct (trim (inputText st)). }
  split; [apply trim_ends|]. split; [apply trim_ends|].
  split; [apply trim_split|].
  unfold validHistory. simpl. unfold isError_falsy. simpl.
  by rewrite trim_idempotent, Ht.
Qed.

Lemma user_message_is_trimmed_draft_witness :
  let st := run (onChange (lit "  hi there ")) (mounted 0 false) in
  let m := userMessage (mkStamp 1000 1000) st in
  text m = lit "hi there" /\ validHistory [m] = [m].
Proof.
  intros st m.
  destruct (user_message_is_trimmed_draft st (mkStamp 1000 1000))
    as (_ & _ & _ & _ & _ & _ & _ & H); [reflexivity | reflexivity |].
  split; [reflexivity | exact H].
Defined.

(** ** What one send adds to the conversation *)

Section one_send.




End one_send.





(** ** Invariants of the reachable configurations *)

Section invariants.

(** An invariant of the machine holds in every reachable configuration. *)
Lemma reachable_ind_from (P : Config -> Prop) (now : Z) (speech : bool) :
  P (start now speech) ->
  (forall e cfg cfg', P cfg -> step e cfg = Some cfg' -> P cfg') ->
  forall cfg, reachable_from now speech cfg -> P cfg.
Proof.
  intros H0 Hstep cfg [evs Hevs]. revert Hevs.
  generalize (start now speech) H0. clear H0.
  induction evs as [|e evs IH]; intros c0 H0 Hevs; simpl in Hevs.
  - by simplify_eq.
  - destruct (step e c0) as [c1|] eqn:E; [|done].
    eapply IH; [|done]. by eapply Hstep.
Qed.

Lemma analyze_enabled (st : AppState) :
  analyze_disabled st = false ->
  3 <= length (messages st)
  /\ handleAnalyze_begin st
     = [ SetShowAnalysis true; SetLoadingState ANALYZING;
         AnalyzeConversation (validHistory (messages st)) ].
Proof.
  unfold analyze_disabled, handleAnalyze_begin. intros H.
  apply orb_false_iff in H as [H _]. rewrite H.
  split; [|done]. apply Nat.ltb_ge in H. lia.
Qed.

Lemma toggle_keeps (st : AppState) :
  let st' := run (toggleVoiceInput st) st in
  loadingState st' = loadingState st /\ analysisData st' = analysisData st
  /\ showAnalysis st' = showAnalysis st /\ inputText st' = inputText st.
Proof.
  unfold toggleVoiceInput.
  by destruct (negb (recognition st)), (isListening st).
Qed.

Lemma accounted_step (e : Event) (cfg cfg' : Config) :
  accounted cfg -> step e cfg = Some cfg' -> accounted cfg'.
Proof.
  intros [Hs Ha] H.
  assert (forall k t' t, tasks cfg !! k = Some t ->
            send_running t = true -> send_running t' = true ->
            loadingState (app cfg) = SENDING ->
            exists k0 t0, <[k := t']> (tasks cfg) !! k0 = Some t0
                          /\ send_running t0 = true) as Hkeep_s.
  { intros k t' t Hk Ht Ht' Hl. destruct (Hs Hl) as (k0 & t0 & Hk0 & Ht0).
    destruct (decide (k = k0)) as [->|Hne].
    - exists k0, t'. split; [|done]. apply list_lookup_insert_eq.
      by eapply lookup_lt_Some.
    - exists k0, t0. by rewrite list_lookup_insert_ne. }
  assert (forall k t' t, tasks cfg !! k = Some t -> t <> AnalyzeAwaiting ->
            loadingState (app cfg) = ANALYZING ->
            exists k0, <[k := t']> (tasks cfg) !! k0 = Some AnalyzeAwaiting)
    as Hkeep_a.
  { intros k t' t Hk Ht Hl. destruct (Ha Hl) as (k0 & Hk0).
    exists k0. rewrite list_lookup_insert_ne; [done|]. intros ->. congruence. }
  destruct e; simpl in H; unfold act, spawn, continue in H;
    repeat case_match; simplify_eq; try done;
    try (split; simpl; discriminate).
  - (* submit *)
    split; simpl; [intros _|].
    + exists (length (tasks cfg)), SendAwaiting.
      by rewrite lookup_app_r, Nat.sub_diag by lia.
    + unfold handleSendMessage_begin.
      replace (send_guard_returns (app cfg)) with false.
      by destruct (isListening (app cfg) && recognition (app cfg)).
  - (* stream opened *)
    split; simpl; intros Hl.
    + by eapply Hkeep_s.
    + by eapply Hkeep_a.
  - (* delta *)
    split; simpl; intros Hl.
    + by eapply Hkeep_s.
    + by eapply Hkeep_a.
  - (* analyze *)
    match goal with
    | Hd : analyze_disabled _ = false |- _ =>
        destruct (analyze_enabled _ Hd) as [_ ->]
    end.
    split; simpl; [discriminate | intros _].
    exists (length (tasks cfg)).
    by rewrite lookup_app_r, Nat.sub_diag by lia.
  - (* toggle *)
    destruct (toggle_keeps (app cfg)) as (Hl & _).
    split; simpl; rewrite Hl; auto.
Qed.

End invariants.

(** In every reachable configuration the activity state is Sending only
    while a call of the submit handler has not returned, and Analyzing
    only while a call of the analyse handler has not: a busy state is never
    left behind by a handler that is over. *)
Theorem busy_state_has_running_handler (cfg : Config) :
  reachable cfg ->
  (loadingState (app cfg) = SENDING ->
   exists k t, tasks cfg !! k = Some t /\ send_running t = true)
  /\ (loadingState (app cfg) = ANALYZING ->
      exists k, tasks cfg !! k = Some AnalyzeAwaiting).
Proof.
  intros (now & speech & Hr).
  apply (reachable_ind_from accounted now speech); [| apply accounted_step | done].
  split; by destruct speech.
Qed.

Lemma busy_state_has_running_handler_witness :
  exists k, tasks analysing_cfg !! k = Some AnalyzeAwaiting.
Proof.
  destruct (busy_state_has_running_handler analysing_cfg) as [_ H].
  - exists 0%Z, false, analysing_events. reflexivity.
  - apply H. reflexivity.
Defined.

(** ** Sends without analyses *)

Section sequential.

Lemma settled_lookup (returned : list Task) (t x : Task) (k : nat) :
  Forall (fun t => t = Settled) returned ->
  (returned ++ [t]) !! k = Some x -> x <> Settled ->
  k = length returned /\ x = t.
Proof.
  intros Hr Hk Hx. apply lookup_app_Some in Hk as [Hk | [Hle Hk]].
  - exfalso. apply Hx. by eapply (proj1 (Forall_lookup _ _) Hr).
  - destruct (k - length returned) as [|n] eqn:E; simpl in Hk; [|done].
    split; [lia | congruence].
Qed.

Lemma settled_insert (returned : list Task) (t t' : Task) :
  <[length returned := t']> (returned ++ [t]) = returned ++ [t'].
Proof. by rewrite insert_app_r_alt, Nat.sub_diag by lia. Qed.

Lemma all_settled_lookup (ts : list Task) (k : nat) (x : Task) :
  Forall (fun t => t = Settled) ts -> ts !! k = Some x -> x = Settled.
Proof. intros H Hk. by eapply (proj1 (Forall_lookup _ _) H). Qed.

Lemma one_send_step (e : Event) (cfg cfg' : Config) :
  one_send_at_most cfg -> is_analyze e = false -> step e cfg = Some cfg' ->
  one_send_at_most cfg'.
Proof.
  intros Hinv He H.
  assert (forall es, loadingState (run es (app cfg)) = loadingState (app cfg) ->
            one_send_at_most (mkConfig (run es (app cfg)) (tasks cfg))) as Hact.
  { intros es Hes. destruct Hinv as [[Hl Ht] | [Hl Ht]]; [left | right];
      simpl; by rewrite Hes. }
  assert (forall k x, tasks cfg !! k = Some x -> x <> Settled ->
            exists returned,
              loadingState (app cfg) = SENDING
              /\ tasks cfg = returned ++ [x] /\ k = length returned
              /\ Forall (fun t => t = Settled) returned
              /\ send_running x = true) as Hrun.
  { intros k x Hk Hx. destruct Hinv as [[_ Ht] | (Hl & returned & t & Hts & Hr & Ht)].
    - exfalso. apply Hx. by eapply all_settled_lookup.
    - rewrite Hts in Hk. destruct (settled_lookup _ _ _ _ Hr Hk Hx) as [-> ->].
      by exists returned. }
  destruct e; try discriminate He; simpl in H; unfold act, spawn, continue in H;
    repeat case_match; simplify_eq; try done;
    try (by apply Hact);
    try (match goal with
         | Hk : tasks cfg !! _ = Some _ |- _ =>
             destruct (Hrun _ _ Hk ltac:(discriminate))
               as (returned & Hl & Hts & -> & Hr & Hx)
         end;
         try discriminate Hx; rewrite Hts, settled_insert).
  - (* submit *)
    destruct Hinv as [[Hl Ht] | [Hl _]].
    + right. simpl. split; [|by exists (tasks cfg), SendAwaiting].
      unfold handleSendMessage_begin.
      replace (send_guard_returns (app cfg)) with false.
      by destruct (isListening (app cfg) && recognition (app cfg)).
    + exfalso.
      assert (send_guard_returns (app cfg) = true) as E
        by (apply send_guard_returns_iff; right; congruence).
      congruence.
  - (* stream opened *)
    right. simpl. split; [done|]. by eexists returned, _.
  - (* delta *)
    right. simpl. split; [done|]. by eexists returned, _.
  - (* stream end *)
    left. simpl. split; [done|]. apply Forall_app_2; [done|]. by constructor.
  - (* stream error, call awaited *)
    left. simpl. split; [done|]. apply Forall_app_2; [done|]. by constructor.
  - (* stream error, stream open *)
    left. simpl. split; [done|]. apply Forall_app_2; [done|]. by constructor.
  - (* toggle *)
    apply Hact. apply toggle_keeps.
Qed.

End sequential.

(** As long as the analysis control is not used, sends never overlap: in
    every configuration reached without a click on it, either the state is
    Idle and every handler has returned, or the state is Sending and
    exactly one call of the submit handler, the last one started, has not
    returned. *)
Theorem sends_do_not_overlap_without_analysis
  (now : Z) (speech : bool) (evs : list Event) (cfg : Config) :
  forallb (fun e => negb (is_analyze e)) evs = true ->
  run_events evs (start now speech) = Some cfg ->
  one_send_at_most cfg.
Proof.
  assert (one_send_at_most (start now speech)) as H0.
  { left. split; [by destruct speech | constructor]. }
  revert H0. generalize (start now speech).
  induction evs as [|e evs IH]; intros c0 H0 Hevs H; simpl in *.
  - by simplify_eq.
  - apply andb_true_iff in Hevs as [He Hevs].
    destruct (step e c0) as [c1|] eqn:E; [|done].
    apply (IH c1); [|done|done].
    eapply one_send_step; [done| |done]. by destruct (is_analyze e).
Qed.

Lemma sends_do_not_overlap_without_analysis_witness :
  exists cfg,
    run_events [ Change (lit "hi"); Submit (mkStamp 1000 1000);
                 Change (lit "again"); Submit (mkStamp 1001 1001);
                 StreamOpened 0 (mkStamp 1005 1005) ] (start 0 true) = Some cfg
    /\ one_send_at_most cfg.
Proof.
  eexists. split; [reflexivity|].
  eapply (sends_do_not_overlap_without_analysis 0 true
            [ Change (lit "hi"); Submit (mkStamp 1000 1000);
              Change (lit "again"); Submit (mkStamp 1001 1001);
              StreamOpened 0 (mkStamp 1005 1005) ]);
    reflexivity.
Defined.

(** ** The send control and the Enter key *)

Lemma handleSendMessage_nonempty (st : AppState) (c : Stamp) (g : StreamBehaviour) :
  send_guard_returns st = false -> handleSendMessage c g st <> [].
Proof.
  intros Hg. unfold handleSendMessage, handleSendMessage_begin. rewrite Hg.
  by destruct (isListening st && recognition st).
Qed.

(** The send button (line 279) is disabled exactly when a call of the
    submit handler would do nothing (line 89): whenever it is enabled a
    click has effects, and whenever it is disabled the handler, reached
    through the Enter key, returns at once. *)
Theorem send_button_disabled_iff_submit_does_nothing
  (st : AppState) (c : Stamp) (g : StreamBehaviour) :
  send_disabled st = true <-> handleSendMessage c g st = [].
Proof.
  change (send_disabled st) with (send_guard_returns st). split.
  - intros H. unfold handleSendMessage. by rewrite H.
  - intros H. destruct (send_guard_returns st) eqn:E; [done|].
    by apply handleSendMessage_nonempty in H.
Qed.

(** Two submits in a row send once: right after any submit, a second one
    changes nothing, either because the first found nothing to send or
    because it emptied the draft and set the state to Sending. *)
Theorem second_submit_does_nothing (cfg cfg1 : Config) (c c' : Stamp) :
  step (Submit c) cfg = Some cfg1 -> step (Submit c') cfg1 = Some cfg1.
Proof.
  simpl. destruct (send_guard_returns (app cfg)) eqn:Hg.
  - intros [= <-]. by rewrite Hg.
  - unfold spawn. intros [= <-]. simpl.
    destruct (run_begin (app cfg) c Hg) as (_ & _ & Hs & _).
    replace (send_guard_returns (run (handleSendMessage_begin c (app cfg)) (app cfg)))
      with true; [done|].
    symmetry. apply send_guard_returns_iff. right. by rewrite Hs.
Qed.

Lemma second_submit_does_nothing_witness :
  exists cfg1,
    step (Submit (mkStamp 1000 1000)) (mkConfig typed_hi []) = Some cfg1
    /\ tasks cfg1 = [SendAwaiting]
    /\ step (Submit (mkStamp 1001 1001)) cfg1 = Some cfg1.
Proof.
  eexists. split; [reflexivity|]. split; [reflexivity|].
  apply (second_submit_does_nothing (mkConfig typed_hi []) _
           (mkStamp 1000 1000) (mkStamp 1001 1001)).
  reflexivity.
Defined.

(** [handleKeyDown] sends on Enter alone. With Shift held, or for any
    other key, it neither suppresses the default action nor has any effect.
    For Enter without Shift the default action is suppressed and the
    effects are those of the submit handler, so on a blank draft or while
    the state is not Idle the key press is swallowed: no line break is
    inserted and nothing is sent. *)
Theorem enter_key_submits (e : KeyboardEvent) (c : Stamp) (g : StreamBehaviour)
  (st : AppState) :
  (key e <> lit "Enter" \/ shiftKey e = true ->
   handleKeyDown e c g st = (false, []))
  /\ (key e = lit "Enter" -> shiftKey e = false ->
      handleKeyDown e c g st = (true, handleSendMessage c g st)
      /\ (forallb isWhiteSpace (inputText st) = true \/ loadingState st <> IDLE ->
          handleKeyDown e c g st = (true, [])
          /\ run (snd (handleKeyDown e c g st)) st = st)).
Proof.
  unfold handleKeyDown, jsstring_eqb. split.
  - intros [H | H].
    + by rewrite bool_decide_eq_false_2.
    + rewrite H. simpl. by rewrite andb_false_r.
  - intros Hk Hs. rewrite bool_decide_eq_true_2, Hs by done. simpl.
    split; [done|]. intros H%send_guard_returns_iff.
    unfold handleSendMessage. by rewrite H.
Qed.

Lemma enter_key_submits_witness :
  let st := run (onChange (lit "  ")) (mounted 0 false) in
  let c := mkStamp 1000 1000 in
  handleKeyDown (mkKey (lit "Enter") true) c (CallRejects c) typed_hi = (false, [])
  /\ handleKeyDown (mkKey (lit "Enter") false) c (CallRejects c) st = (true, []).
Proof.
  intros st c. split.
  - apply (proj1 (enter_key_submits (mkKey (lit "Enter") true) c
                    (CallRejects c) typed_hi)).
    right. reflexivity.
  - apply (proj2 (enter_key_submits (mkKey (lit "Enter") false) c
                    (CallRejects c) st) eq_refl eq_refl).
    left. reflexivity.
Defined.

(** ** A failed first send and the analysis threshold *)

Lemma validHistory_cons (m : Message) (l : list Message) :
  validHistory (m :: l)
  = if isError_falsy m && truthy (trim (text m))
    then m :: validHistory l else validHistory l.
Proof. reflexivity. Qed.

(** The threshold of three counts every message, the filter does not: when
    the very first send fails at the gateway call, the conversation has
    three messages (greeting, user message, apology), the analysis control
    is enabled, and a click passes a history of only two messages, the
    greeting and the user's message. *)
Theorem failed_send_enables_analysis_of_two
  (now : Z) (speech : bool) (v : jsstring) (c failed : Stamp) :
  forallb isWhiteSpace v = false ->
  let st := run (onChange v) (mounted now speech) in
  let st' := run (handleSendMessage c (CallRejects failed) st) st in
  messages st' = [initialGreeting now; userMessage c st; apology failed]
  /\ analyze_disabled st' = false
  /\ handleAnalyze_begin st'
     = [ SetShowAnalysis true; SetLoadingState ANALYZING;
         AnalyzeConversation [initialGreeting now; userMessage c st] ].
Proof.
  intros Hv st st'.
  assert (inputText st = v /\ loadingState st = IDLE
          /\ messages st = [initialGreeting now]) as (Hi & Hl & Hm)
    by (subst st; by destruct speech).
  clearbody st.
  assert (send_guard_returns st = false) as Hg
    by (apply send_guard_passes; [by rewrite Hi | done]).
  assert (truthy (trim v) = true) as Ht.
  { destruct (truthy (trim v)) eqn:E; [done|]. apply trim_blank in E. congruence. }
  assert (messages st' = [initialGreeting now; userMessage c st; apology failed]
          /\ loadingState st' = IDLE) as (Hm' & Hl').
  { subst st'. unfold handleSendMessage. rewrite Hg.
    destruct (run_begin st c Hg) as (Hb & _).
    rewrite run_app. revert Hb.
    generalize (run (handleSendMessage_begin c st) st). intros s Hb.
    simpl. rewrite Hb, Hm. done. }
  split; [done|]. split.
  - unfold analyze_disabled. by rewrite Hm', Hl'.
  - unfold handleAnalyze_begin. rewrite Hm'.
    change (length [_; _; _] <? 3) with false. cbv iota. do 3 f_equal.
    assert (isError_falsy (userMessage c st)
            && truthy (trim (text (userMessage c st))) = true) as Hu.
    { unfold userMessage, isError_falsy. simpl.
      by rewrite trim_idempotent, Hi, Ht. }
    rewrite !validHistory_cons, Hu. reflexivity.
Qed.

Lemma failed_send_enables_analysis_of_two_witness :
  let st' := run (handleSendMessage (mkStamp 1000 1000)
                    (CallRejects (mkStamp 1010 1010)) typed_hi) typed_hi in
  analyze_disabled st' = false
  /\ length (validHistory (messages st')) = 2.
Proof.
  destruct (failed_send_enables_analysis_of_two 0 false (lit "hi")
              (mkStamp 1000 1000) (mkStamp 1010 1010) eq_refl)
    as (_ & H & _).
  split; [exact H | reflexivity].
Defined.

(** ** Speech capture *)

Section speech.

Lemma run_no_speech_effect (es : list Effect) :
  no_speech_effect es = true ->
  forall st, recognition (run es st) = recognition st
             /\ isListening (run es st) = isListening st
             /\ baseText (run es st) = baseText st.
Proof.
  induction es as [|e es IH]; intros H st; [done|].
  simpl in H. apply andb_true_iff in H as [He Hes].
  rewrite run_cons. destruct (IH Hes (apply e st)) as (-> & -> & ->).
  by destruct e.
Qed.

Lemma begin_no_speech_effect (c : Stamp) (st : AppState) :
  no_speech_effect (handleSendMessage_begin c st) = true.
Proof.
  unfold handleSendMessage_begin. destruct (send_guard_returns st); [done|].
  by destruct (isListening st && recognition st).
Qed.

Lemma analyze_begin_no_speech_effect (st : AppState) :
  no_speech_effect (handleAnalyze_begin st) = true.
Proof. unfold handleAnalyze_begin. by destruct (length (messages st) <? 3). Qed.

Lemma speechless_step (e : Event) (cfg cfg' : Config) :
  speechless (app cfg) -> step e cfg = Some cfg' -> speechless (app cfg').
Proof.
  intros (Hr & Hl & Hb) H.
  assert (forall es ts, no_speech_effect es = true ->
            speechless (app (mkConfig (run es (app cfg)) ts))) as Hkeep.
  { intros es ts Hes. destruct (run_no_speech_effect es Hes (app cfg))
      as (H1 & H2 & H3). unfold speechless. simpl. by rewrite H1, H2, H3. }
  destruct e; simpl in H; unfold act, spawn, continue in H;
    repeat case_match; simplify_eq; try done; try (by apply Hkeep).
  - apply Hkeep, begin_no_speech_effect.
  - apply Hkeep, analyze_begin_no_speech_effect.
  - apply Hkeep. unfold toggleVoiceInput. by rewrite Hr.
Qed.

(** The text a transcript event puts in the draft. *)
Lemma onresult_text (base : jsstring) (segments : list jsstring) :
  base
  ++ (if truthy base && negb (endsWith base (lit " ")) then lit " " else [])
  ++ fold_left (fun acc s => acc ++ s) segments []
  = draft_from_speech base (List.concat segments).
Proof.
  unfold draft_from_speech, separator_for.
  rewrite fold_left_app_concat, endsWith_space. simpl.
  destruct base as [|b base]; [done|]. simpl truthy. cbv iota.
  rewrite andb_true_l. by destruct (List.last (b :: base) 0 =? 0x20)%N.
Qed.

End speech.

(** Without speech recognition in the browser nothing of the voice input
    ever happens: in every configuration reached after a mount that found
    no recognizer, none is set, the component is not listening and no
    baseline is stored, and a click on the microphone only raises the
    notice and leaves the whole configuration as it is. *)
Theorem no_recognizer_no_voice_input (now : Z) (cfg : Config) :
  reachable_from now false cfg ->
  speechless (app cfg)
  /\ toggleVoiceInput (app cfg) = [Alert]
  /\ step ToggleVoice cfg = Some cfg.
Proof.
  intros Hr.
  assert (speechless (app cfg)) as Hs.
  { apply (reachable_ind_from (fun c => speechless (app c)) now false);
      [done | apply speechless_step | done]. }
  split; [done|]. destruct Hs as (Hrec & _).
  assert (toggleVoiceInput (app cfg) = [Alert]) as Ht
    by (unfold toggleVoiceInput; by rewrite Hrec).
  split; [done|]. simpl. unfold act. rewrite Ht. by destruct cfg.
Qed.

Lemma no_recognizer_no_voice_input_witness :
  exists cfg,
    run_events [Change (lit "hi"); ToggleVoice; Submit (mkStamp 1000 1000)]
               (start 0 false) = Some cfg
    /\ speechless (app cfg)
    /\ step ToggleVoice cfg = Some cfg.
Proof.
  eexists. split; [reflexivity|].
  match goal with |- speechless (app ?c) /\ _ =>
    destruct (no_recognizer_no_voice_input 0 c) as (H1 & _ & H3)
  end.
  - exists [Change (lit "hi"); ToggleVoice; Submit (mkStamp 1000 1000)].
    reflexivity.
  - split; [exact H1 | exact H3].
Defined.

(** A listening session recomputes the draft from the baseline taken at
    its start: when a recognizer is there and the component is not
    listening, a click on the microphone, the start of the recognition, a
    transcript event, some typing and a second transcript event leave as
    draft the draft of before the click, the separator and the second
    transcript; the first transcript and what was typed in between are
    gone, and the conversation and the activity state are untouched. *)
Theorem listening_overwrites_draft (cfg : Config)
  (first second : list jsstring) (typed : jsstring) :
  recognition (app cfg) = true -> isListening (app cfg) = false ->
  exists cfg',
    run_events [ ToggleVoice; SpeechStart; SpeechResult first;
                 Change typed; SpeechResult second ] cfg = Some cfg'
    /\ inputText (app cfg')
       = draft_from_speech (inputText (app cfg)) (List.concat second)
    /\ baseText (app cfg') = inputText (app cfg)
    /\ isListening (app cfg') = true
    /\ messages (app cfg') = messages (app cfg)
    /\ loadingState (app cfg') = loadingState (app cfg)
    /\ tasks cfg' = tasks cfg.
Proof.
  destruct cfg as [[msgs inp ls ad sa il rec base] ts]. simpl.
  intros -> ->. eexists. split; [reflexivity|]. simpl.
  split; [apply onresult_text | done].
Qed.

Lemma listening_overwrites_draft_witness :
  exists cfg',
    run_events [ ToggleVoice; SpeechStart; SpeechResult [lit "the"; lit "re"];
                 Change (lit "typed"); SpeechResult [lit "there now"] ]
               (mkConfig (run (onChange (lit "Hi")) (mounted 0 true)) [])
    = Some cfg'
    /\ inputText (app cfg') = lit "Hi there now".
Proof.
  destruct (listening_overwrites_draft
              (mkConfig (run (onChange (lit "Hi")) (mounted 0 true)) [])
              [lit "the"; lit "re"] [lit "there now"] (lit "typed")
              eq_refl eq_refl) as (cfg' & H1 & H2 & _).
  exists cfg'. split; [exact H1 | exact H2].
Defined.

(** ** The shape of the conversation *)

Section shape.

Lemma well_shaped_appends_begin (c : Stamp) (st : AppState) :
  Forall well_shaped (appends (handleSendMessage_begin c st)).
Proof.
  unfold handleSendMessage_begin. destruct (send_guard_returns st); [constructor|].
  destruct (isListening st && recognition st); repeat constructor;
    simpl; eauto.
Qed.

Lemma well_shaped_appends_opened (c : Stamp) :
  Forall well_shaped (appends (handleSendMessage_opened c)).
Proof. constructor; [|constructor]. split; [by eexists | by left]. Qed.

Lemma well_shaped_appends_catch (c : Stamp) :
  Forall well_shaped
         (appends (handleSendMessage_catch c ++ handleSendMessage_finally)).
Proof. constructor; [|constructor]. split; [by eexists | by right]. Qed.

Lemma rewrite_text_well_shaped (rid t : jsstring) (m : Message) :
  well_shaped m -> well_shaped (rewrite_text rid t m).
Proof.
  unfold well_shaped, rewrite_text. by destruct (jsstring_eqb (id m) rid).
Qed.

(** What a step appends is well shaped. *)
Lemma step_history_shaped (e : Event) (cfg cfg' : Config) :
  step e cfg = Some cfg' ->
  (exists extra, messages (app cfg') = messages (app cfg) ++ extra
                 /\ Forall well_shaped extra)
  \/ (exists rid t, messages (app cfg')
                    = List.map (rewrite_text rid t) (messages (app cfg))).
Proof.
  intros H.
  assert (forall es ts, only_appends es = true ->
            Forall well_shaped (appends es) ->
            exists extra,
              messages (app (mkConfig (run es (app cfg)) ts))
              = messages (app cfg) ++ extra /\ Forall well_shaped extra) as Happ.
  { intros es ts Hes Hw. exists (appends es). split; [|done].
    by apply run_only_appends. }
  assert (exists extra, messages (app cfg) = messages (app cfg) ++ extra
                        /\ Forall well_shaped extra) as Hsame.
  { exists []. by rewrite app_nil_r. }
  destruct e; simpl in H; unfold act, spawn, continue in H;
    repeat case_match; simplify_eq;
    try (left; exact Hsame);
    try (left; apply Happ; [done | by constructor]);
    try (left; apply Happ; [done | apply well_shaped_appends_opened]);
    try (left; apply Happ; [done | apply well_shaped_appends_catch]).
  - left. apply Happ; [apply begin_only_appends | apply well_shaped_appends_begin].
  - right. by eexists _, _.
  - left. destruct (analyze_begin_only_appends (app cfg)) as [H1 H2].
    apply Happ; [done|]. rewrite H2. constructor.
  - left. destruct (toggle_only_appends (app cfg)) as [H1 H2].
    apply Happ; [done|]. rewrite H2. constructor.
Qed.

Lemma shaped_step (e : Event) (cfg cfg' : Config) :
  Forall well_shaped (tail (messages (app cfg))) ->
  step e cfg = Some cfg' ->
  Forall well_shaped (tail (messages (app cfg'))).
Proof.
  intros Hw H.
  destruct (step_history_shaped e cfg cfg' H)
    as [(extra & -> & He) | (rid & t & ->)].
  - destruct (messages (app cfg)) as [|m msgs]; simpl in *.
    + destruct extra; [constructor | by inversion He].
    + by apply Forall_app_2.
  - destruct (messages (app cfg)) as [|m msgs]; simpl in *; [constructor|].
    apply Forall_fmap. eapply Forall_impl; [exact Hw|].
    intros x Hx. by apply rewrite_text_well_shaped.
Qed.

End shape.

(** In every reachable configuration the conversation is the greeting
    followed by messages that each have an identifier made from the clock,
    never the greeting's ['init-1'], and an error flag only if they are
    replies: a user message is never flagged as an error and the flag is
    never [false]. *)
Theorem conversation_is_well_shaped (now : Z) (speech : bool) (cfg : Config) :
  reachable_from now speech cfg ->
  exists rest,
    messages (app cfg) = initialGreeting now :: rest
    /\ Forall well_shaped rest
    /\ Forall (fun m => id m <> id (initialGreeting now)) rest
    /\ Forall (fun m => role m = user -> isError m = None) rest
    /\ Forall (fun m => isError m <> Some false) (messages (app cfg)).
Proof.
  intros Hr.
  assert (greeted now cfg) as [Hg _].
  { destruct Hr as [evs Hevs].
    by eapply greeted_run; [apply greeted_start|]. }
  assert (Forall well_shaped (tail (messages (app cfg)))) as Hw.
  { apply (reachable_ind_from
             (fun c => Forall well_shaped (tail (messages (app c)))) now speech);
      [by destruct speech | apply shaped_step | done]. }
  destruct (messages (app cfg)) as [|m rest]; [done|].
  simpl in Hg, Hw. injection Hg as ->. exists rest.
  split; [done|]. split; [done|]. split; [|split].
  - eapply Forall_impl; [exact Hw|]. intros m [[z Hz] _]. rewrite Hz.
    apply Number_toString_not_init.
  - eapply Forall_impl; [exact Hw|]. intros m [_ [H | [_ H]]]; [done|].
    intros Hu. congruence.
  - constructor; [done|]. eapply Forall_impl; [exact Hw|].
    intros m [_ [H | [H _]]]; congruence.
Qed.

Lemma conversation_is_well_shaped_witness :
  exists cfg rest,
    run_events [ Change (lit "hi"); Submit (mkStamp 1000 1000);
                 StreamError 0 (mkStamp 1010 1010) ] (start 0 false) = Some cfg
    /\ messages (app cfg) = initialGreeting 0 :: rest
    /\ Forall well_shaped rest.
Proof.
  eexists.
  match goal with |- exists rest, run_events ?evs ?c0 = Some ?c /\ _ =>
    destruct (conversation_is_well_shaped 0 false
                (default c0 (run_events evs c0)))
      as (rest & H1 & H2 & _)
  end.
  - exists [ Change (lit "hi"); Submit (mkStamp 1000 1000);
             StreamError 0 (mkStamp 1010 1010) ]. reflexivity.
  - exists rest. split; [reflexivity|]. split; [exact H1 | exact H2].
Defined.

(** ** Analyses need three messages *)

Section threshold.

Lemma step_length (e : Event) (cfg cfg' : Config) :
  step e cfg = Some cfg' ->
  length (messages (app cfg)) <= length (messages (app cfg')).
Proof.
  intros H. destruct (step_history e cfg cfg' H).
  - rewrite length_app. lia.
  - by rewrite length_map.
Qed.

Lemma run_keeps_analysis (es : list Effect) :
  forallb (fun e => match e with
                    | SetAnalysisData _ | SetShowAnalysis true
                    | SetLoadingState ANALYZING => false
                    | _ => true
                    end) es = true ->
  forall st,
    (analysisData (run es st) <> None -> analysisData st <> None)
    /\ (showAnalysis (run es st) = true -> showAnalysis st = true)
    /\ (loadingState (run es st) = ANALYZING -> loadingState st = ANALYZING).
Proof.
  induction es as [|e es IH]; intros H st; [done|].
  simpl in H. apply andb_true_iff in H as [He Hes].
  rewrite run_cons. destruct (IH Hes (apply e st)) as (H1 & H2 & H3).
  split; [|split]; intros Hx.
  - apply H1 in Hx. by destruct e.
  - apply H2 in Hx. destruct e; try done. simpl in Hx. by destruct b.
  - apply H3 in Hx. destruct e; try done. simpl in Hx. by destruct l.
Qed.

Lemma analysis_touched_step (e : Event) (cfg cfg' : Config) :
  step e cfg = Some cfg' -> analysis_touched cfg' ->
  analysis_touched cfg \/ 3 <= length (messages (app cfg)).
Proof.
  intros H Ht.
  assert (forall es ts,
            forallb (fun e => match e with
                              | SetAnalysisData _ | SetShowAnalysis true
                              | SetLoadingState ANALYZING => false
                              | _ => true
                              end) es = true ->
            (forall k, ts !! k = Some AnalyzeAwaiting ->
                       exists k', tasks cfg !! k' = Some AnalyzeAwaiting) ->
            analysis_touched (mkConfig (run es (app cfg)) ts) ->
            analysis_touched cfg) as Hkeep.
  { intros es ts Hes Hts [Ha | [Hs | [Hl | [k Hk]]]];
      destruct (run_keeps_analysis es Hes (app cfg)) as (H1 & H2 & H3).
    - left. by apply H1.
    - right. left. by apply H2.
    - right. right. left. by apply H3.
    - right. right. right. by eapply Hts. }
  assert (forall k, tasks cfg !! k = Some AnalyzeAwaiting ->
                    exists k', tasks cfg !! k' = Some AnalyzeAwaiting) as Hsame
    by eauto.
  assert (forall t, t <> AnalyzeAwaiting -> forall k,
            (tasks cfg ++ [t]) !! k = Some AnalyzeAwaiting ->
            exists k', tasks cfg !! k' = Some AnalyzeAwaiting) as Hspawn.
  { intros t Hne k Hk. apply lookup_app_Some in Hk as [Hk | [_ Hk]]; [eauto|].
    destruct (k - length (tasks cfg)); simpl in Hk; by simplify_eq. }
  assert (forall t j, t <> AnalyzeAwaiting -> forall k,
            <[j := t]> (tasks cfg) !! k = Some AnalyzeAwaiting ->
            exists k', tasks cfg !! k' = Some AnalyzeAwaiting) as Hcont.
  { intros t j Hne k Hk.
    apply list_lookup_insert_Some in Hk as [(_ & E & _) | [_ Hk]]; [done|eauto]. }
  destruct e; simpl in H; unfold act, spawn, continue in H;
    repeat case_match; simplify_eq;
    try (by left);
    try (left; eapply Hkeep; [| |exact Ht]; [done|];
         first [exact Hsame | by apply Hspawn | by apply Hcont]).
  - (* submit *)
    left. eapply Hkeep; [| |exact Ht]; [|by apply Hspawn].
    unfold handleSendMessage_begin.
    destruct (send_guard_returns (app cfg)); [done|].
    by destruct (isListening (app cfg) && recognition (app cfg)).
  - (* analyze *)
    right. by eapply analyze_enabled.
  - (* analysis complete *)
    left. right. right. right. eauto.
  - (* toggle *)
    left. eapply Hkeep; [| |exact Ht]; [|exact Hsame].
    unfold toggleVoiceInput.
    by destruct (negb (recognition (app cfg))), (isListening (app cfg)).
Qed.

End threshold.

(** Nothing of an analysis exists for a conversation of fewer than three
    messages: in every reachable configuration, a stored result, an open
    overlay, the Analyzing state or a call of the analyse handler that has
    not returned each imply that the conversation has three messages or
    more. *)
Theorem analysis_only_with_three_messages (cfg : Config) :
  reachable cfg -> analysis_touched cfg -> 3 <= length (messages (app cfg)).
Proof.
  intros (now & speech & Hr). revert cfg Hr.
  apply (reachable_ind_from
           (fun c => analysis_touched c -> 3 <= length (messages (app c)))).
  - intros [H | [H | [H | [k H]]]]; destruct speech; try done; by destruct k.
  - intros e cfg cfg' IH H Ht.
    pose proof (step_length e cfg cfg' H).
    destruct (analysis_touched_step e cfg cfg' H Ht) as [Hc | Hc]; [|lia].
    apply IH in Hc. lia.
Qed.

Lemma analysis_only_with_three_messages_witness :
  3 <= length (messages (app analysing_cfg)).
Proof.
  apply analysis_only_with_three_messages.
  - exists 0%Z, false, analysing_events. reflexivity.
  - right. left. reflexivity.
Defined.

(** ** Identifiers and the filtered history *)

(** The identifiers of one send, made from the clock. The [+ 1] of line
    117 keeps the reply's identifier apart from the user message's even
    when the stream opens in the same millisecond, as long as the clock
    does not run backwards; the apology's identifier equals the reply's
    exactly when the stream throws one millisecond after it was opened,
    and equals the user message's exactly when the call fails in the
    millisecond of the submit. *)
Theorem message_ids_by_clock (st : AppState) (c opened failed : Stamp)
  (t : jsstring) :
  ((now_id c <= now_id opened)%Z ->
   id (placeholder opened t) <> id (userMessage c st))
  /\ (id (apology failed) = id (placeholder opened t)
      <-> now_id failed = (now_id opened + 1)%Z)
  /\ (id (apology failed) = id (userMessage c st)
      <-> now_id failed = now_id c).
Proof.
  unfold placeholder, apology, userMessage, responseId_at. cbn [id].
  split; [|split].
  - intros Hle E%Number_toString_inj. lia.
  - split; intros E.
    + by apply Number_toString_inj.
    + by rewrite E.
  - split; intros E.
    + by apply Number_toString_inj.
    + by rewrite E.
Qed.

Lemma message_ids_by_clock_witness :
  id (placeholder (mkStamp 1000 1000) []) <> id (userMessage (mkStamp 1000 1000) typed_hi)
  /\ id (apology (mkStamp 1001 1001)) = id (placeholder (mkStamp 1000 1000) []).
Proof.
  destruct (message_ids_by_clock typed_hi (mkStamp 1000 1000) (mkStamp 1000 1000)
              (mkStamp 1001 1001) []) as (H1 & H2 & _).
  split; [apply H1; simpl; lia | by apply H2].
Defined.

Lemma validHistory_In (msgs : list Message) (m : Message) :
  In m (validHistory msgs)
  <-> In m msgs /\ isError m <> Some true
      /\ forallb isWhiteSpace (text m) = false.
Proof.
  unfold validHistory. rewrite filter_In, andb_true_iff.
  assert (isError_falsy m = true <-> isError m <> Some true) as ->.
  { unfold isError_falsy. destruct (isError m) as [[|]|]; intuition congruence. }
  assert (truthy (trim (text m)) = true
          <-> forallb isWhiteSpace (text m) = false) as ->; [|done].
  pose proof (trim_blank (text m)).
  destruct (truthy (trim (text m))), (forallb isWhiteSpace (text m));
    intuition congruence.
Qed.

(** What the analysis never receives: whatever the conversation, the
    history filtered on line 183 holds no apology of a failed send and no
    reply whose text is still empty or blank, and filtering it again
    changes nothing. *)
Theorem analysis_history_excludes_failures (msgs : list Message) :
  (forall failed, ~ In (apology failed) (validHistory msgs))
  /\ (forall opened t, forallb isWhiteSpace t = true ->
        ~ In (placeholder opened t) (validHistory msgs))
  /\ validHistory (validHistory msgs) = validHistory msgs.
Proof.
  split; [|split].
  - intros failed H. by apply validHistory_In in H as (_ & H & _).
  - intros opened t Ht H. apply validHistory_In in H as (_ & _ & H).
    simpl in H. congruence.
  - unfold validHistory. induction msgs as [|m msgs IH]; simpl; [done|].
    destruct (isError_falsy m && truthy (trim (text m))) eqn:E; [|done].
    simpl. by rewrite E, IH.
Qed.

Lemma analysis_history_excludes_failures_witness :
  ~ In (placeholder (mkStamp 1005 1005) (lit "  "))
       (validHistory [initialGreeting 0; placeholder (mkStamp 1005 1005) (lit "  ")]).
Proof.
  apply (proj1 (proj2 (analysis_history_excludes_failures
                         [initialGreeting 0;
                          placeholder (mkStamp 1005 1005) (lit "  ")]))).
  reflexivity.
Defined.

(** ** A stream among other events *)

Section among_events.

Lemma textChunk_received (c : GenerateContentResponse) :
  textChunk c = default [] (chunk_text c).
Proof.
  unfold textChunk. destruct (chunk_text c) as [t|]; [|done].
  by destruct t.
Qed.

Lemma texts_received (chunks : list GenerateContentResponse) :
  texts chunks = received chunks.
Proof.
  unfold texts, received. induction chunks as [|c chunks IH]; [done|].
  simpl. by rewrite textChunk_received, IH.
Qed.



(** The effects of a composer, overlay or speech event leave the
    conversation and the activity state alone. *)
Lemma act_keeps (es : list Effect) :
  forallb (fun e => match e with
                    | SetMessages _ | AppendMessage _ | RewriteText _ _
                    | SetLoadingState _ => false
                    | _ => true
                    end) es = true ->
  forall st, messages (run es st) = messages st
             /\ loadingState (run es st) = loadingState st.
Proof.
  induction es as [|e es IH]; intros H st; [done|].
  simpl in H. apply andb_true_iff in H as [He Hes].
  rewrite run_cons. destruct (IH Hes (apply e st)) as (-> & ->).
  by destruct e.
Qed.

Lemma toggle_act (st : AppState) :
  messages (run (toggleVoiceInput st) st) = messages st
  /\ loadingState (run (toggleVoiceInput st) st) = loadingState st.
Proof.
  apply act_keeps. unfold toggleVoiceInput.
  by destruct (negb (recognition st)), (isListening st).
Qed.




End among_events.







(** ** The typing indicator *)

Section indicator.

Lemma awaited_or_streaming_step (e : Event) (cfg cfg' : Config) :
  awaited_or_streaming cfg -> is_analyze e = false ->
  step e cfg = Some cfg' -> awaited_or_streaming cfg'.
Proof.
  intros Hinv He H.
  assert (forall es, messages (run es (app cfg)) = messages (app cfg)
                     /\ loadingState (run es (app cfg)) = loadingState (app cfg) ->
            awaited_or_streaming (mkConfig (run es (app cfg)) (tasks cfg)))
    as Hact.
  { intros es [Hm Hl]. unfold awaited_or_streaming. simpl. by rewrite Hm, Hl. }
  assert (forall j x, tasks cfg !! j = Some x -> x <> Settled ->
            exists returned,
              tasks cfg = returned ++ [x] /\ j = length returned
              /\ Forall (fun t => t = Settled) returned
              /\ loadingState (app cfg) = SENDING
              /\ send_running x = true
              /\ exists m, list.last (messages (app cfg)) = Some m
                           /\ role m = match x with
                                       | SendAwaiting => user
                                       | _ => model
                                       end) as Hrun.
  { intros j x Hj Hx.
    destruct Hinv as [[_ Ht] | [(Hl & (returned & Hts & Hr) & Hm)
                               | (Hl & (returned & rid & full & Hts & Hr) & Hm)]].
    - exfalso. apply Hx. by eapply all_settled_lookup.
    - rewrite Hts in Hj. destruct (settled_lookup _ _ _ _ Hr Hj Hx) as [-> ->].
      by exists returned.
    - rewrite Hts in Hj. destruct (settled_lookup _ _ _ _ Hr Hj Hx) as [-> ->].
      by exists returned. }
  destruct e; try discriminate He; simpl in H; unfold act, spawn, continue in H;
    repeat case_match; simplify_eq; try done;
    try (by apply Hact, act_keeps);
    try (match goal with
         | Hk : tasks cfg !! _ = Some _ |- _ =>
             destruct (Hrun _ _ Hk ltac:(discriminate))
               as (returned & Hts & -> & Hr & Hl & Hx & m & Hm & Hrole)
         end;
         try discriminate Hx; rewrite Hts, settled_insert).
  - (* submit *)
    match goal with Hg : send_guard_returns _ = false |- _ =>
      destruct (run_begin (app cfg) c Hg) as (Hm & _ & Hs & _);
      apply send_guard_passes_iff in Hg as [_ Hidle]
    end.
    destruct Hinv as [[_ Ht] | [(Hl & _) | (Hl & _)]]; try congruence.
    right. left. simpl. split; [done|]. split; [by exists (tasks cfg)|].
    rewrite Hm, last_snoc. by eexists.
  - (* stream opened *)
    right. right. simpl. split; [done|]. split; [by eexists returned, _, _|].
    rewrite last_snoc. by eexists.
  - (* delta *)
    right. right. simpl. split; [done|]. split; [by eexists returned, _, _|].
    rewrite fmap_last, Hm. simpl. eexists. split; [done|].
    unfold rewrite_text. by destruct (jsstring_eqb (id m) responseId).
  - (* stream end *)
    left. simpl. split; [done|]. apply Forall_app_2; [done|]. by constructor.
  - (* stream error, call awaited *)
    left. simpl. split; [done|]. apply Forall_app_2; [done|]. by constructor.
  - (* stream error, stream open *)
    left. simpl. split; [done|]. apply Forall_app_2; [done|]. by constructor.
  - (* microphone *)
    apply Hact, toggle_act.
Qed.

End indicator.

(** As long as the analysis control is not clicked, the typing indicator
    of line 232 is rendered exactly while a call of the submit handler is
    suspended at the gateway's send call: in every configuration reached
    without a click on the control, its condition is true if and only if
    some task awaits the stream; it is false when Idle and false from the
    moment the placeholder is appended. *)
Theorem typing_indicator_while_call_awaited
  (now : Z) (speech : bool) (evs : list Event) (cfg : Config) :
  forallb (fun e => negb (is_analyze e)) evs = true ->
  run_events evs (start now speech) = Some cfg ->
  typingIndicator (app cfg) = true
  <-> exists k, tasks cfg !! k = Some SendAwaiting.
Proof.
  intros Hevs H.
  assert (awaited_or_streaming cfg) as Hinv.
  { assert (awaited_or_streaming (start now speech)) as H0.
    { left. split; [by destruct speech | constructor]. }
    revert H0 Hevs H. generalize (start now speech).
    induction evs as [|e evs IH]; intros c0 H0 Hevs H; simpl in *.
    - by simplify_eq.
    - apply andb_true_iff in Hevs as [He Hevs].
      destruct (step e c0) as [c1|] eqn:E; [|done].
      apply (IH c1); [|done|done].
      eapply awaited_or_streaming_step; [done| |done]. by destruct (is_analyze e). }
  unfold typingIndicator.
  destruct Hinv as [[Hl Ht] | [(Hl & (returned & Hts & Hr) & (m & Hm & Hrole))
                             | (Hl & (returned & rid & full & Hts & Hr)
                                   & (m & Hm & Hrole))]].
  - rewrite Hl. simpl. split; [done|]. intros [k Hk].
    by apply (all_settled_lookup _ _ _ Ht) in Hk.
  - rewrite Hl, Hm, Hrole. split.
    + intros _. exists (length returned).
      by rewrite Hts, lookup_app_r, Nat.sub_diag by lia.
    + intros _. simpl. rewrite andb_true_r. apply Nat.ltb_lt.
      destruct (messages (app cfg)); [done | simpl; lia].
  - rewrite Hl, Hm, Hrole. rewrite andb_false_r. split; [done|].
    intros [k Hk]. rewrite Hts in Hk.
    by destruct (settled_lookup _ _ _ _ Hr Hk ltac:(discriminate)) as [_ ?].
Qed.

Lemma typing_indicator_while_call_awaited_witness :
  let awaiting := [Change (lit "hi"); Submit (mkStamp 1000 1000)] in
  let opened := awaiting ++ [StreamOpened 0 (mkStamp 1005 1005)] in
  exists cfg1 cfg2,
    run_events awaiting (start 0 false) = Some cfg1
    /\ typingIndicator (app cfg1) = true
    /\ run_events opened (start 0 false) = Some cfg2
    /\ (typingIndicator (app cfg2) = true
        <-> exists k, tasks cfg2 !! k = Some SendAwaiting).
Proof.
  intros awaiting opened. do 2 eexists.
  split; [reflexivity|]. split.
  - apply (typing_indicator_while_call_awaited 0 false awaiting);
      [reflexivity | reflexivity |]. by exists 0.
  - split; [reflexivity|].
    apply (typing_indicator_while_call_awaited 0 false opened); reflexivity.
Defined.
